(** * A shallow embedding of the 6502 core of the NES emulator (src/cpu.cpp)

    The CPU object is a record of registers; every member function of
    [CPU] becomes a computation in a small state monad over that record.
    Fixed-width C++ integers are integers in [Z] with the conversion that
    C++ performs on assignment ([u8], [u16], [u64], [s8]) written out.
    The memory bus is external to the core: it is a parameter of the whole
    development (a type of bus states with a read and a write operation),
    so that every statement holds for every bus. *)

From Stdlib Require Import ZArith List Bool String Ascii Lia.
From Stdlib Require Import HexadecimalString.
Import ListNotations.

Local Open Scope Z_scope.

(** ** Fixed-width integers *)

(** Conversion to [std::uint8_t], [std::uint16_t], [std::uint64_t]. *)
Definition u8 (n : Z) : Z := n mod 2 ^ 8.
Definition u16 (n : Z) : Z := n mod 2 ^ 16.
Definition u64 (n : Z) : Z := n mod 2 ^ 64.

(** [static_cast<std::int8_t>] of a value: two's complement reading of the
    low eight bits. *)
Definition s8 (n : Z) : Z :=
  let b := u8 n in if b <? 128 then b else b - 256.

Definition is_u8 (n : Z) : Prop := 0 <= n < 2 ^ 8.
Definition is_u16 (n : Z) : Prop := 0 <= n < 2 ^ 16.
Definition is_u64 (n : Z) : Prop := 0 <= n < 2 ^ 64.

(** ** Status flags *)

Module Status.
(** Modelled from the spec: the [Status] enumeration is declared in cpu.h,
    which is not among the sources; section 2 of the specification gives the
    bit layout of P (bit0 Carry, bit1 Zero, bit2 InterruptDisable,
    bit3 Decimal, bit4 Break, bit5 Unused, bit6 Overflow, bit7 Negative),
    and the constants of the StatusFlags test agree with it. *)
Definition Carry : Z := 0x01.
Definition Zero : Z := 0x02.
Definition InterruptDisable : Z := 0x04.
Definition Decimal : Z := 0x08.
Definition Break : Z := 0x10.
Definition Unused : Z := 0x20.
Definition Overflow : Z := 0x40.
Definition Negative : Z := 0x80.
End Status.

(** The groups of flags the statements speak of: what the loads and
    increments write, what ADC and SBC write, and bits 2, 3 and 4. *)
Definition ZN : Z := Z.lor Status.Zero Status.Negative.
Definition CZVN : Z :=
  Z.lor (Z.lor Status.Carry Status.Zero)
        (Z.lor Status.Overflow Status.Negative).
Definition IDB : Z :=
  Z.lor (Z.lor Status.InterruptDisable Status.Decimal) Status.Break.

(** The mask of every bit of P but those of [flags]. *)
Definition all_but (flags : Z) : Z := Z.lxor 0xFF flags.

(** [mask] is a byte and shares no bit with [flags]. *)
Definition apart (flags mask : Z) : bool :=
  (0 <=? mask) && (mask <? 256) && (Z.land (u8 flags) mask =? 0).

(** ** The decode entry *)

(** Pointers to member functions are tags ([iLDA] for [&CPU::LDA], [mIMM] for
    [&CPU::IMM]); [None] is the null pointer. *)
Inductive InstructionMethod : Type :=
| iLDA | iLDX | iLDY | iSTA | iSTX | iSTY | iADC | iSBC
| iINC | iDEC | iINX | iINY | iDEX | iDEY.

Inductive AddressingModeMethod : Type :=
| mIMP | mIMM | mZPG | mZPGX | mZPGY | mABS | mABSX | mABSY
| mIND | mINDX | mINDY | mREL.

(** Modelled from the spec: [InstructionData] is declared in cpu.h, which is
    not among the sources.  Its fields are taken from their uses in cpu.cpp
    ([instructionMethod], [addressingModeMethod], [cycles],
    [pageCrossPenalty]) and from section 3 of the specification, which gives
    the page-cross flag the default [true]. *)
Record InstructionData : Type := mkInstructionData {
  name : string;
  instructionMethod : option InstructionMethod;
  addressingModeMethod : option AddressingModeMethod;
  cycles : Z;
  pageCrossPenalty : bool
}.

(** The value-initialised entry of [_opcodeTable{}]. *)
Definition null_entry : InstructionData :=
  mkInstructionData "" None None 0 true.

(** [InstructionData{ n, &CPU::i, &CPU::m, c }] and
    [InstructionData{ n, &CPU::i, &CPU::m, c, false }]. *)
Definition entry (n : string) (i : InstructionMethod)
    (m : AddressingModeMethod) (c : Z) : InstructionData :=
  mkInstructionData n (Some i) (Some m) c true.

Definition entry_np (n : string) (i : InstructionMethod)
    (m : AddressingModeMethod) (c : Z) : InstructionData :=
  mkInstructionData n (Some i) (Some m) c false.

Definition OpcodeTable : Type := Z -> InstructionData.

Definition table_set (t : OpcodeTable) (opcode : Z) (e : InstructionData)
  : OpcodeTable :=
  fun i => if i =? opcode then e else t i.

(** The assignments of the constructor [CPU::CPU], in source order. *)
Definition assignments : list (Z * InstructionData) :=
  [ (* LDA *)
    (0xA9, entry "LDA_Immediate" iLDA mIMM 2);
    (0xA5, entry "LDA_ZeroPage" iLDA mZPG 3);
    (0xB5, entry "LDA_ZeroPageX" iLDA mZPGX 4);
    (0xAD, entry "LDA_Absolute" iLDA mABS 4);
    (0xBD, entry "LDA_AbsoluteX" iLDA mABSX 4);
    (0xB9, entry "LDA_AbsoluteY" iLDA mABSY 4);
    (0xA1, entry "LDA_IndirectX" iLDA mINDX 6);
    (0xB1, entry "LDA_IndirectY" iLDA mINDY 5);
    (* LDX *)
    (0xA2, entry "LDX_Immediate" iLDX mIMM 2);
    (0xA6, entry "LDX_ZeroPage" iLDX mZPG 3);
    (0xB6, entry "LDX_ZeroPageY" iLDX mZPGY 4);
    (0xAE, entry "LDX_Absolute" iLDX mABS 4);
    (0xBE, entry "LDX_AbsoluteY" iLDX mABSY 4);
    (* LDY *)
    (0xA0, entry "LDY_Immediate" iLDY mIMM 2);
    (0xA4, entry "LDY_ZeroPage" iLDY mZPG 3);
    (0xB4, entry "LDY_ZeroPageX" iLDY mZPGX 4);
    (0xAC, entry "LDY_Absolute" iLDY mABS 4);
    (0xBC, entry "LDY_AbsoluteX" iLDY mABSX 4);
    (* STA *)
    (0x85, entry "STA_ZeroPage" iSTA mZPG 3);
    (0x95, entry "STA_ZeroPageX" iSTA mZPGX 4);
    (0x8D, entry "STA_Absolute" iSTA mABS 4);
    (0x9D, entry_np "STA_AbsoluteX" iSTA mABSX 5);
    (0x99, entry_np "STA_AbsoluteY" iSTA mABSY 5);
    (0x81, entry_np "STA_IndirectX" iSTA mINDX 6);
    (0x91, entry_np "STA_IndirectY" iSTA mINDY 6);
    (* STX *)
    (0x86, entry "STX_ZeroPage" iSTX mZPG 3);
    (0x96, entry "STX_ZeroPageY" iSTX mZPGY 4);
    (0x8E, entry "STX_Absolute" iSTX mABS 4);
    (* STY *)
    (0x84, entry "STY_ZeroPage" iSTY mZPG 3);
    (0x94, entry "STY_ZeroPageX" iSTY mZPGX 4);
    (0x8C, entry "STY_Absolute" iSTY mABS 4);
    (* ADC *)
    (0x69, entry "ADC_Immediate" iADC mIMM 2);
    (0x65, entry "ADC_ZeroPage" iADC mZPG 3);
    (0x75, entry "ADC_ZeroPageX" iADC mZPGX 4);
    (0x6D, entry "ADC_Absolute" iADC mABS 4);
    (0x7D, entry "ADC_AbsoluteX" iADC mABSX 4);
    (0x79, entry "ADC_AbsoluteY" iADC mABSY 4);
    (0x61, entry "ADC_IndirectX" iADC mINDX 6);
    (0x71, entry "ADC_IndirectY" iADC mINDY 5);
    (* SBC *)
    (0xE9, entry "SBC_Immediate" iSBC mIMM 2);
    (0xE5, entry "SBC_ZeroPage" iSBC mZPG 3);
    (0xF5, entry "SBC_ZeroPageX" iSBC mZPGX 4);
    (0xED, entry "SBC_Absolute" iSBC mABS 4);
    (0xFD, entry "SBC_AbsoluteX" iSBC mABSX 4);
    (0xF9, entry "SBC_AbsoluteY" iSBC mABSY 4);
    (0xE1, entry "SBC_IndirectX" iSBC mINDX 6);
    (0xF1, entry "SBC_IndirectY" iSBC mINDY 5);
    (* INC *)
    (0xE6, entry "INC_ZeroPage" iINC mZPG 5);
    (0xF6, entry "INC_ZeroPageX" iINC mZPGX 6);
    (0xEE, entry "INC_Absolute" iINC mABS 6);
    (0xFE, entry_np "INC_AbsoluteX" iINC mABSX 7);
    (* DEC *)
    (0xC6, entry "DEC_ZeroPage" iDEC mZPG 5);
    (0xD6, entry "DEC_ZeroPageX" iDEC mZPGX 6);
    (0xCE, entry "DEC_Absolute" iDEC mABS 6);
    (0xDE, entry_np "DEC_AbsoluteX" iDEC mABSX 7);
    (* INX, INY, DEX, DEY *)
    (0xE8, entry "INX" iINX mIMP 2);
    (0xC8, entry "INY" iINY mIMP 2);
    (0xCA, entry "DEX" iDEX mIMP 2);
    (0x88, entry "DEY" iDEY mIMP 2) ].

(** [_opcodeTable] as the constructor leaves it: every entry null, then the
    assignments one after the other. *)
Definition _opcodeTable : OpcodeTable :=
  fold_left (fun t ke => table_set t (fst ke) (snd ke)) assignments
            (fun _ => null_entry).

(** The diagnostic of [Tick]:
    [std::cerr << "Bad opcode: " << std::hex << static_cast<int>( opcode ) << '\n'].
    [std::hex] prints lower-case digits without prefix or padding. *)
Definition hex (n : Z) : string :=
  NilZero.string_of_uint (N.to_hex_uint (Z.to_N n)).

Definition newline : string := String (ascii_of_nat 10) EmptyString.

Definition bad_opcode_message (opcode : Z) : string :=
  ("Bad opcode: " ++ hex opcode ++ newline)%string.

(** *** Notions the statements about the table use *)

Definition InstructionMethod_eqb (i j : InstructionMethod) : bool :=
  match i, j with
  | iLDA, iLDA | iLDX, iLDX | iLDY, iLDY | iSTA, iSTA | iSTX, iSTX
  | iSTY, iSTY | iADC, iADC | iSBC, iSBC | iINC, iINC | iDEC, iDEC
  | iINX, iINX | iINY, iINY | iDEX, iDEX | iDEY, iDEY => true
  | _, _ => false
  end.

(** The 256 opcode bytes. *)
Definition opcodes : list Z := map Z.of_nat (seq 0 256).

(** Both handlers of the entry are non-null: the test of [Tick]. *)
Definition implemented (opcode : Z) : bool :=
  match instructionMethod (_opcodeTable opcode),
        addressingModeMethod (_opcodeTable opcode) with
  | Some _, Some _ => true
  | _, _ => false
  end.

Definition implemented_opcodes : list Z := filter implemented opcodes.

(** The opcodes whose entry runs instruction [i]. *)
Definition opcodes_of (i : InstructionMethod) : list Z :=
  filter (fun opcode =>
            match instructionMethod (_opcodeTable opcode) with
            | Some j => InstructionMethod_eqb i j
            | None => false
            end) opcodes.

(** The bitwise complement of a byte, [~v] converted back to [u8]. *)
Definition complement8 (v : Z) : Z := u8 (Z.lnot v).

(** ** The CPU object and its member functions *)

Section Core.

(** The bus behind [_bus]: bus.h is not among the sources, and section 4.1
    of the specification only fixes its interface.  A bus has a state of
    its own; a read returns a byte and may change that state, a write
    commits a byte. *)
Context {Bus : Type}.
Variable bus_Read : Bus -> Z -> Z * Bus.
Variable bus_Write : Bus -> Z -> Z -> Bus.

(** The fields of [CPU] that cpu.cpp uses, the bus that [_bus] points to
    and the text written to [std::cerr] so far. *)
Record CPU : Type := mkCPU {
  _a : Z;
  _x : Z;
  _y : Z;
  _s : Z;
  _p : Z;
  _pc : Z;
  _cycles : Z;
  _currentPageCrossPenalty : bool;
  _bus : Bus;
  cerr : string
}.

Definition with_a (v : Z) (c : CPU) : CPU :=
  mkCPU v (_x c) (_y c) (_s c) (_p c) (_pc c) (_cycles c)
        (_currentPageCrossPenalty c) (_bus c) (cerr c).
Definition with_x (v : Z) (c : CPU) : CPU :=
  mkCPU (_a c) v (_y c) (_s c) (_p c) (_pc c) (_cycles c)
        (_currentPageCrossPenalty c) (_bus c) (cerr c).
Definition with_y (v : Z) (c : CPU) : CPU :=
  mkCPU (_a c) (_x c) v (_s c) (_p c) (_pc c) (_cycles c)
        (_currentPageCrossPenalty c) (_bus c) (cerr c).
Definition with_s (v : Z) (c : CPU) : CPU :=
  mkCPU (_a c) (_x c) (_y c) v (_p c) (_pc c) (_cycles c)
        (_currentPageCrossPenalty c) (_bus c) (cerr c).
Definition with_p (v : Z) (c : CPU) : CPU :=
  mkCPU (_a c) (_x c) (_y c) (_s c) v (_pc c) (_cycles c)
        (_currentPageCrossPenalty c) (_bus c) (cerr c).
Definition with_pc (v : Z) (c : CPU) : CPU :=
  mkCPU (_a c) (_x c) (_y c) (_s c) (_p c) v (_cycles c)
        (_currentPageCrossPenalty c) (_bus c) (cerr c).
Definition with_cycles (v : Z) (c : CPU) : CPU :=
  mkCPU (_a c) (_x c) (_y c) (_s c) (_p c) (_pc c) v
        (_currentPageCrossPenalty c) (_bus c) (cerr c).
Definition with_currentPageCrossPenalty (v : bool) (c : CPU) : CPU :=
  mkCPU (_a c) (_x c) (_y c) (_s c) (_p c) (_pc c) (_cycles c)
        v (_bus c) (cerr c).
Definition with_bus (v : Bus) (c : CPU) : CPU :=
  mkCPU (_a c) (_x c) (_y c) (_s c) (_p c) (_pc c) (_cycles c)
        (_currentPageCrossPenalty c) v (cerr c).
Definition with_cerr (v : string) (c : CPU) : CPU :=
  mkCPU (_a c) (_x c) (_y c) (_s c) (_p c) (_pc c) (_cycles c)
        (_currentPageCrossPenalty c) (_bus c) v.

(** *** The state monad of member functions *)

Definition M (A : Type) : Type := CPU -> A * CPU.

Definition ret {A : Type} (a : A) : M A := fun c => (a, c).

Definition bind {A B : Type} (m : M A) (k : A -> M B) : M B :=
  fun c => k (fst (m c)) (snd (m c)).

Definition get {A : Type} (field : CPU -> A) : M A := fun c => (field c, c).

Definition modify (f : CPU -> CPU) : M unit := fun c => (tt, f c).

(** The state a [void] member function leaves. *)
Definition exec {A : Type} (m : M A) (c : CPU) : CPU := snd (m c).

(** The value a member function returns. *)
Definition result {A : Type} (m : M A) (c : CPU) : A := fst (m c).

Notation "x <- m ;; k" := (bind m (fun x => k))
  (at level 61, m at next level, right associativity).
Notation "m ;; k" := (bind m (fun _ => k))
  (at level 61, right associativity).

(** [if ( b ) { m }] *)
Definition when (b : bool) (m : M unit) : M unit := if b then m else ret tt.

(** *** Getters and setters *)

Definition GetAccumulator : M Z := get _a.
Definition GetXRegister : M Z := get _x.
Definition GetYRegister : M Z := get _y.
Definition GetStatusRegister : M Z := get _p.
Definition GetProgramCounter : M Z := get _pc.
Definition GetStackPointer : M Z := get _s.
Definition GetCycles : M Z := get _cycles.

Definition SetAccumulator (value : Z) : M unit := modify (with_a (u8 value)).
Definition SetXRegister (value : Z) : M unit := modify (with_x (u8 value)).
Definition SetYRegister (value : Z) : M unit := modify (with_y (u8 value)).
Definition SetStatusRegister (value : Z) : M unit :=
  modify (with_p (u8 value)).
Definition SetProgramCounter (value : Z) : M unit :=
  modify (with_pc (u16 value)).
Definition SetStackPointer (value : Z) : M unit := modify (with_s (u8 value)).
Definition SetCycles (value : Z) : M unit :=
  modify (with_cycles (u64 value)).

(** *** Bus access *)

(** [CPU::Read] returns [u8]; the address parameter is [u16]. *)
Definition Read (address : Z) : M Z := fun c =>
  let r := bus_Read (_bus c) (u16 address) in
  (u8 (fst r), with_bus (snd r) c).

Definition Write (address data : Z) : M unit := fun c =>
  (tt, with_bus (bus_Write (_bus c) (u16 address) (u8 data)) c).

(** [_pc++] as an expression: the old value, [_pc] incremented in 16 bits. *)
Definition pc_post_inc : M Z := fun c =>
  (_pc c, with_pc (u16 (_pc c + 1)) c).

(** [_cycles++] *)
Definition cycles_inc : M unit :=
  modify (fun c => with_cycles (u64 (_cycles c + 1)) c).

(** [return Read( _pc++ );] *)
Definition Fetch : M Z :=
  pc <- pc_post_inc ;;
  Read pc.

(** *** Addressing modes *)

(** Modelled from the spec: [CPU::IMP] is named by the decode table but is
    not defined in cpu.cpp.  Section 4.3 of the specification: the implied
    mode reads no byte from PC and its address is unused, the handler
    ignores it. *)
Definition IMP : M Z := ret 0.

Definition IMM : M Z := pc_post_inc.

Definition ZPG : M Z :=
  pc <- pc_post_inc ;;
  b <- Read pc ;;
  ret (u16 (Z.land b 0x00FF)).

Definition ZPGX : M Z :=
  pc <- pc_post_inc ;;
  b <- Read pc ;;
  x <- get _x ;;
  ret (u16 (Z.land (b + x) 0x00FF)).

Definition ZPGY : M Z :=
  pc <- pc_post_inc ;;
  b <- Read pc ;;
  y <- get _y ;;
  ret (u16 (Z.land (b + y) 0x00FF)).

Definition ABS : M Z :=
  pc <- pc_post_inc ;;
  low <- Read pc ;;
  pc <- pc_post_inc ;;
  high <- Read pc ;;
  ret (u16 (Z.lor (Z.shiftl high 8) low)).

Definition ABSX : M Z :=
  pc <- pc_post_inc ;;
  low <- Read pc ;;
  pc <- pc_post_inc ;;
  high <- Read pc ;;
  let address := u16 (Z.lor (Z.shiftl high 8) low) in
  x <- get _x ;;
  let final_address := u16 (address + x) in
  penalty <- get _currentPageCrossPenalty ;;
  when (penalty &&
        negb (Z.land final_address 0xFF00 =? Z.land address 0xFF00))
       cycles_inc ;;
  ret final_address.

Definition ABSY : M Z :=
  pc <- pc_post_inc ;;
  low <- Read pc ;;
  pc <- pc_post_inc ;;
  high <- Read pc ;;
  let address := u16 (Z.lor (Z.shiftl high 8) low) in
  y <- get _y ;;
  let final_address := u16 (address + y) in
  penalty <- get _currentPageCrossPenalty ;;
  when (penalty &&
        negb (Z.land final_address 0xFF00 =? Z.land address 0xFF00))
       cycles_inc ;;
  ret final_address.

Definition IND : M Z :=
  pc <- pc_post_inc ;;
  ptr_low <- Read pc ;;
  pc <- pc_post_inc ;;
  ptr_high <- Read pc ;;
  let ptr := u16 (Z.lor (Z.shiftl ptr_high 8) ptr_low) in
  address_low <- Read ptr ;;
  address_high <- (if ptr_low =? 0xFF
                   then Read (Z.land ptr 0xFF00)
                   else Read (ptr + 1)) ;;
  ret (u16 (Z.lor (Z.shiftl address_high 8) address_low)).

Definition INDX : M Z :=
  pc <- pc_post_inc ;;
  b <- Read pc ;;
  x <- get _x ;;
  let zero_page_address := u8 (Z.land (b + x) 0x00FF) in
  ptr_low <- Read zero_page_address ;;
  ptr_high <- Read (Z.land (zero_page_address + 1) 0x00FF) ;;
  ret (u16 (Z.lor (Z.shiftl ptr_high 8) ptr_low)).

Definition INDY : M Z :=
  pc <- pc_post_inc ;;
  zero_page_address <- Read pc ;;
  ptr_low <- Read zero_page_address ;;
  ptr_high <- Read (Z.land (zero_page_address + 1) 0x00FF) ;;
  y <- get _y ;;
  let address := u16 (Z.lor (Z.shiftl ptr_high 8) ptr_low + y) in
  penalty <- get _currentPageCrossPenalty ;;
  when (penalty &&
        negb (Z.land address 0xFF00 =? Z.shiftl ptr_high 8))
       cycles_inc ;;
  ret address.

Definition REL : M Z :=
  pc <- get _pc ;;
  b <- Read pc ;;
  let offset := s8 b in
  pc <- get _pc ;;
  let address := u16 (pc + offset) in
  pc_post_inc ;;
  ret address.

(** *** Instruction helpers *)

(** [_p |= flag] *)
Definition SetFlags (flag : Z) : M unit :=
  modify (fun c => with_p (u8 (Z.lor (_p c) (u8 flag))) c).

(** [_p &= ~flag] *)
Definition ClearFlags (flag : Z) : M unit :=
  modify (fun c => with_p (u8 (Z.land (_p c) (Z.lnot (u8 flag)))) c).

(** [return ( _p & flag ) == flag;] *)
Definition IsFlagSet (flag : Z) : M bool :=
  p <- get _p ;;
  ret (Z.land p (u8 flag) =? u8 flag).

Definition SetZeroAndNegativeFlags (value : Z) : M unit :=
  let value := u8 value in
  ClearFlags (Z.lor Status.Zero Status.Negative) ;;
  when (value =? 0) (SetFlags Status.Zero) ;;
  when (negb (Z.land value 0x80 =? 0)) (SetFlags Status.Negative).

(** The register passed by reference is the setter of its field. *)
Definition LoadRegister (address : Z) (reg : Z -> CPU -> CPU) : M unit :=
  value <- Read address ;;
  modify (reg value) ;;
  SetZeroAndNegativeFlags value.

Definition StoreRegister (address : Z) (reg : Z) : M unit :=
  Write address reg.

(** *** Instructions *)

Definition LDA (address : Z) : M unit := LoadRegister address with_a.
Definition LDX (address : Z) : M unit := LoadRegister address with_x.
Definition LDY (address : Z) : M unit := LoadRegister address with_y.

Definition STA (address : Z) : M unit :=
  a <- get _a ;; StoreRegister address a.
Definition STX (address : Z) : M unit :=
  x <- get _x ;; StoreRegister address x.
Definition STY (address : Z) : M unit :=
  y <- get _y ;; StoreRegister address y.

Definition ADC (address : Z) : M unit :=
  value <- Read address ;;
  c_set <- IsFlagSet Status.Carry ;;
  let carry := if c_set then 1 else 0 in
  a <- get _a ;;
  let sum := u16 (a + value + carry) in
  (if sum >? 0xFF
   then SetFlags Status.Carry else ClearFlags Status.Carry) ;;
  (if Z.land sum 0xFF =? 0
   then SetFlags Status.Zero else ClearFlags Status.Zero) ;;
  a <- get _a ;;
  let accumulator_sign_bit := u8 (Z.land a 0x80) in
  let value_sign_bit := u8 (Z.land value 0x80) in
  let sum_sign_bit := u8 (Z.land sum 0x80) in
  (if (accumulator_sign_bit =? value_sign_bit) &&
      negb (accumulator_sign_bit =? sum_sign_bit)
   then SetFlags Status.Overflow else ClearFlags Status.Overflow) ;;
  (if negb (Z.land sum 0x80 =? 0)
   then SetFlags Status.Negative else ClearFlags Status.Negative) ;;
  modify (with_a (u8 (Z.land sum 0xFF))).

Definition SBC (address : Z) : M unit :=
  value <- Read address ;;
  c_set <- IsFlagSet Status.Carry ;;
  let carry := if c_set then 0 else 1 in
  a <- get _a ;;
  let diff := u16 (a - value - carry) in
  (if diff <? 0x100
   then SetFlags Status.Carry else ClearFlags Status.Carry) ;;
  (if Z.land diff 0xFF =? 0
   then SetFlags Status.Zero else ClearFlags Status.Zero) ;;
  a <- get _a ;;
  let accumulator_sign_bit := u8 (Z.land a 0x80) in
  let value_sign_bit := u8 (Z.land value 0x80) in
  let diff_sign_bit := u8 (Z.land diff 0x80) in
  (if negb (accumulator_sign_bit =? value_sign_bit) &&
      negb (accumulator_sign_bit =? diff_sign_bit)
   then SetFlags Status.Overflow else ClearFlags Status.Overflow) ;;
  (if negb (Z.land diff 0x80 =? 0)
   then SetFlags Status.Negative else ClearFlags Status.Negative) ;;
  modify (with_a (u8 (Z.land diff 0xFF))).

Definition INC (address : Z) : M unit :=
  value <- Read address ;;
  let result := u8 (value + 1) in
  SetZeroAndNegativeFlags result ;;
  Write address result.

Definition INX (address : Z) : M unit :=
  modify (fun c => with_x (u8 (_x c + 1)) c) ;;
  x <- get _x ;;
  SetZeroAndNegativeFlags x.

Definition INY (address : Z) : M unit :=
  modify (fun c => with_y (u8 (_y c + 1)) c) ;;
  y <- get _y ;;
  SetZeroAndNegativeFlags y.

Definition DEC (address : Z) : M unit :=
  value <- Read address ;;
  let result := u8 (value - 1) in
  SetZeroAndNegativeFlags result ;;
  Write address result.

Definition DEX (address : Z) : M unit :=
  modify (fun c => with_x (u8 (_x c - 1)) c) ;;
  x <- get _x ;;
  SetZeroAndNegativeFlags x.

Definition DEY (address : Z) : M unit :=
  modify (fun c => with_y (u8 (_y c - 1)) c) ;;
  y <- get _y ;;
  SetZeroAndNegativeFlags y.

(** *** Dispatch *)

(** [( this->*addressing_mode_handler )()] *)
Definition call_addressing_mode (m : AddressingModeMethod) : M Z :=
  match m with
  | mIMP => IMP | mIMM => IMM | mZPG => ZPG | mZPGX => ZPGX
  | mZPGY => ZPGY | mABS => ABS | mABSX => ABSX | mABSY => ABSY
  | mIND => IND | mINDX => INDX | mINDY => INDY | mREL => REL
  end.

(** [( this->*instruction_handler )( address )] *)
Definition call_instruction (i : InstructionMethod) (address : Z) : M unit :=
  match i with
  | iLDA => LDA address | iLDX => LDX address | iLDY => LDY address
  | iSTA => STA address | iSTX => STX address | iSTY => STY address
  | iADC => ADC address | iSBC => SBC address
  | iINC => INC address | iDEC => DEC address
  | iINX => INX address | iINY => INY address
  | iDEX => DEX address | iDEY => DEY address
  end.

(** [_cycles += n] *)
Definition cycles_add (n : Z) : M unit :=
  modify (fun c => with_cycles (u64 (_cycles c + n)) c).

(** [std::cerr << ...] *)
Definition print_cerr (s : string) : M unit :=
  modify (fun c => with_cerr (cerr c ++ s)%string c).

Definition Tick : M unit :=
  opcode <- Fetch ;;
  let instruction := _opcodeTable opcode in
  match instructionMethod instruction, addressingModeMethod instruction with
  | Some instruction_handler, Some addressing_mode_handler =>
      modify (with_currentPageCrossPenalty (pageCrossPenalty instruction)) ;;
      address <- call_addressing_mode addressing_mode_handler ;;
      call_instruction instruction_handler address ;;
      cycles_add (cycles instruction)
  | _, _ =>
      print_cerr (bad_opcode_message opcode)
  end.

(** The two reads of the reset vector are taken in the order in which the
    source writes them, high byte first. *)
Definition Reset : M unit :=
  modify (with_a 0x00) ;;
  modify (with_x 0x00) ;;
  modify (with_y 0x00) ;;
  modify (with_s 0xFD) ;;
  modify (with_p (u8 (Z.lor 0x00 Status.Unused))) ;;
  modify (with_cycles 0) ;;
  high <- Read 0xFFFD ;;
  low <- Read 0xFFFC ;;
  modify (with_pc (u16 (Z.lor (Z.shiftl high 8) low))).

(** *** Notions the statements use *)

(** The page of an address (glossary of the specification): its high
    byte, kept in place. *)
Definition page (address : Z) : Z := Z.land address 0xFF00.

(** A flag of P as a truth value. *)
Definition flag (f : Z) (c : CPU) : bool := result (IsFlagSet f) c.

(** The bits of P selected by [mask]. *)
Definition P_bits (mask : Z) (c : CPU) : Z := Z.land (_p c) mask.

(** [m] leaves [field] as it found it. *)
Definition preserves {A B : Type} (field : CPU -> A) (m : M B) : Prop :=
  forall c, field (exec m c) = field c.

(** The word that (Indirect),Y finds in the zero page, before Y is added:
    the reads of [INDY] without the index. *)
Definition INDY_pointer : M Z :=
  pc <- pc_post_inc ;;
  zero_page_address <- Read pc ;;
  ptr_low <- Read zero_page_address ;;
  ptr_high <- Read (Z.land (zero_page_address + 1) 0x00FF) ;;
  ret (u16 (Z.lor (Z.shiftl ptr_high 8) ptr_low)).

(** The base address of the three indexed modes that can cross a page:
    the operand word for Absolute,X and Absolute,Y, the zero-page pointer
    for (Indirect),Y. *)
Definition base_address (m : AddressingModeMethod) : M Z :=
  match m with
  | mABSX | mABSY => ABS
  | mINDY => INDY_pointer
  | _ => call_addressing_mode m
  end.

(** The effective address of mode [m], resolved from state [c], lies in
    another page than its base address, and [m] is one of ABSX, ABSY,
    INDY. *)
Definition page_crossed (m : AddressingModeMethod) (c : CPU) : bool :=
  match m with
  | mABSX | mABSY | mINDY =>
      negb (page (result (call_addressing_mode m) c)
            =? page (result (base_address m) c))
  | _ => false
  end.

End Core.

Arguments CPU : clear implicits.

(** ** Concrete buses *)

(** The bus in flat-memory mode, as the test fixture constructs it: one byte
    per address, reads without effect. *)
Definition FlatBus : Type := Z -> Z.

Definition flat_Read (m : FlatBus) (address : Z) : Z * FlatBus :=
  (m address, m).

Definition flat_Write (m : FlatBus) (address data : Z) : FlatBus :=
  fun i => if i =? address then data else m i.

Fixpoint flat_load (m : FlatBus) (address : Z) (bytes : list Z) : FlatBus :=
  match bytes with
  | [] => m
  | b :: rest => flat_load (flat_Write m address b) (address + 1) rest
  end.

(** A flat memory that also records every access, in order. *)
Inductive BusEvent : Type :=
| BusRead (address : Z)
| BusWrite (address data : Z).

Definition RecBus : Type := FlatBus * list BusEvent.

Definition rec_Read (b : RecBus) (address : Z) : Z * RecBus :=
  (fst b address, (fst b, snd b ++ [BusRead address])).

Definition rec_Write (b : RecBus) (address data : Z) : RecBus :=
  (flat_Write (fst b) address data, snd b ++ [BusWrite address data]).

(** The machine a test case starts from: registers as [Reset] leaves them
    over a zeroed flat memory, then a program at [pc]. *)
Definition flat_machine (pc : Z) (program : list Z) : CPU FlatBus :=
  mkCPU 0 0 0 0xFD 0x20 pc 0 false
        (flat_load (fun _ => 0) pc program) EmptyString.

Definition rec_machine (pc : Z) (program : list Z) : CPU RecBus :=
  mkCPU 0 0 0 0xFD 0x20 pc 0 false
        (flat_load (fun _ => 0) pc program, []) EmptyString.

Definition flat_Tick : CPU FlatBus -> CPU FlatBus :=
  exec (Tick flat_Read flat_Write).
Definition rec_Tick : CPU RecBus -> CPU RecBus :=
  exec (Tick rec_Read rec_Write).

(** *** Seeded machines

    The end-to-end scenarios of section 8 of the specification and the
    boundary cases of the addressing modes, seeded the way the test
    fixture seeds a case. *)

(** Scenario 1: LDA #$00. *)
Definition lda_zero_machine : CPU FlatBus :=
  flat_machine 0x8000 [0xA9; 0x00].

(** Scenario 2: LDA #$80. *)
Definition lda_negative_machine : CPU FlatBus :=
  flat_machine 0x8000 [0xA9; 0x80].

(** Scenario 3: A = 0x7F, Carry clear, ADC #$01. *)
Definition adc_overflow_machine : CPU FlatBus :=
  with_a 0x7F (flat_machine 0x8000 [0x69; 0x01]).

(** Scenario 4: A = 0x01, Carry set, SBC #$02. *)
Definition sbc_borrow_machine : CPU FlatBus :=
  with_p 0x21 (with_a 0x01 (flat_machine 0x8000 [0xE9; 0x02])).

(** The memory of scenario 4 with the operand complemented. *)
Definition sbc_borrow_complemented : FlatBus :=
  flat_load (fun _ => 0) 0x8000 [0xE9; 0xFD].

(** Scenario 5: X = 0x20, LDA $20F0,X with 0x42 at 0x2110. *)
Definition lda_absx_machine : CPU FlatBus :=
  with_bus (flat_Write (flat_load (fun _ => 0) 0x8000 [0xBD; 0xF0; 0x20])
                       0x2110 0x42)
           (with_x 0x20 (flat_machine 0x8000 [])).

(** Scenario 6: A = 0x77, X = 0x20, STA $20F0,X. *)
Definition sta_absx_machine : CPU FlatBus :=
  with_a 0x77 (with_x 0x20 (flat_machine 0x8000 [0x9D; 0xF0; 0x20])).

(** The pointer 0x02FF at PC, 0x34 at 0x02FF, 0x12 at 0x0200 and 0x56 at
    0x0300, on the recording bus. *)
Definition ind_wrap_machine : CPU RecBus :=
  with_bus (flat_Write
              (flat_Write
                 (flat_Write (flat_load (fun _ => 0) 0x8000 [0xFF; 0x02])
                             0x02FF 0x34)
                 0x0200 0x12)
              0x0300 0x56, [])
           (rec_machine 0x8000 []).

(** The offset +5 at PC = 0x8000. *)
Definition rel_machine : CPU FlatBus := flat_machine 0x8000 [0x05].

(** Opcode 0x02, which the table does not fill, at PC = 0x8000. *)
Definition bad_opcode_machine : CPU RecBus :=
  rec_machine 0x8000 [0x02; 0xF0; 0x20].

(** The registers a test compares. *)
Definition registers {Bus : Type} (c : CPU Bus)
  : Z * Z * Z * Z * Z * Z * Z :=
  (_a c, _x c, _y c, _s c, _p c, _pc c, _cycles c).

(** ** Notions of the further properties *)

(** Every register within the width of its C++ type. *)
Definition in_range {Bus : Type} (c : CPU Bus) : Prop :=
  is_u8 (_a c) /\ is_u8 (_x c) /\ is_u8 (_y c) /\ is_u8 (_s c) /\
  is_u8 (_p c) /\ is_u16 (_pc c) /\ is_u64 (_cycles c).

(** [m] keeps the property [P] of states. *)
Definition keeps {Bus A : Type} (P : CPU Bus -> Prop) (m : M A) : Prop :=
  forall c, P c -> P (exec m c).

(** [m] moves PC forward by [n] bytes, in 16 bits. *)
Definition advances {Bus A : Type} (n : nat) (m : M A) : Prop :=
  forall c : CPU Bus,
    is_u16 (_pc c) -> _pc (exec m c) = u16 (_pc c + Z.of_nat n).

(** The number of [Read( _pc++ )] (for IMM, of [_pc++]; for REL, the read
    and the later [_pc++]) in the body of each addressing mode. *)
Definition operand_bytes (m : AddressingModeMethod) : Z :=
  match m with
  | mIMP => 0
  | mIMM | mZPG | mZPGX | mZPGY | mINDX | mINDY | mREL => 1
  | mABS | mABSX | mABSY | mIND => 2
  end.

(** The handlers whose body calls [Write]. *)
Definition writes_memory (i : InstructionMethod) : bool :=
  match i with
  | iSTA | iSTX | iSTY | iINC | iDEC => true
  | _ => false
  end.

(** The register a store handler passes to [StoreRegister]. *)
Definition stored_register {Bus : Type} (i : InstructionMethod)
    (c : CPU Bus) : option Z :=
  match i with
  | iSTA => Some (_a c)
  | iSTX => Some (_x c)
  | iSTY => Some (_y c)
  | _ => None
  end.

(** The three modes whose body tests [_currentPageCrossPenalty]. *)
Definition indexed (m : AddressingModeMethod) : bool :=
  match m with
  | mABSX | mABSY | mINDY => true
  | _ => false
  end.

(** The index register an indexed mode adds. *)
Definition index_of {Bus : Type} (m : AddressingModeMethod) (c : CPU Bus)
  : Z :=
  match m with
  | mABSX => _x c
  | _ => _y c
  end.

(** * Properties *)

(** ** Bytes and bits *)

Lemma u8_range (n : Z) : is_u8 (u8 n).
Proof. unfold is_u8, u8. apply Z.mod_pos_bound. lia. Qed.

Lemma u16_range (n : Z) : is_u16 (u16 n).
Proof. unfold is_u16, u16. apply Z.mod_pos_bound. lia. Qed.

Lemma u8_id (n : Z) : is_u8 n -> u8 n = n.
Proof. unfold is_u8, u8. intros H. apply Z.mod_small. exact H. Qed.

Lemma u16_id (n : Z) : is_u16 n -> u16 n = n.
Proof. unfold is_u16, u16. intros H. apply Z.mod_small. exact H. Qed.

Lemma u8_testbit (n i : Z) :
  0 <= i -> Z.testbit (u8 n) i = (i <? 8) && Z.testbit n i.
Proof.
  intros Hi. unfold u8.
  destruct (Z.ltb_spec i 8) as [Hlt | Hge]; cbn [andb].
  - apply Z.mod_pow2_bits_low. lia.
  - apply Z.mod_pow2_bits_high. lia.
Qed.

Lemma u16_testbit (n i : Z) :
  0 <= i -> Z.testbit (u16 n) i = (i <? 16) && Z.testbit n i.
Proof.
  intros Hi. unfold u16.
  destruct (Z.ltb_spec i 16) as [Hlt | Hge]; cbn [andb].
  - apply Z.mod_pow2_bits_low. lia.
  - apply Z.mod_pow2_bits_high. lia.
Qed.

Lemma is_u8_high_bits (n i : Z) : is_u8 n -> 8 <= i -> Z.testbit n i = false.
Proof.
  intros Hn Hi. rewrite <- (u8_id n Hn). rewrite u8_testbit by lia.
  destruct (Z.ltb_spec i 8); [lia | reflexivity].
Qed.

(** Rewrites one bit of a bitwise expression over bytes. *)
Ltac bit_rewrite :=
  repeat first
    [ rewrite Z.land_spec | rewrite Z.lor_spec | rewrite Z.lxor_spec
    | rewrite u8_testbit by lia | rewrite u16_testbit by lia
    | rewrite Z.lnot_spec by lia | rewrite Z.bits_0 ].

(** Equality of two bitwise expressions, bit by bit. *)
Ltac by_bits i Hi := apply Z.bits_inj'; intros i Hi; bit_rewrite.

Lemma land_after_set (p m : Z) :
  Z.land (u8 (Z.lor p (u8 m))) (u8 m) = u8 m.
Proof.
  by_bits i Hi.
  destruct (i <? 8), (Z.testbit p i), (Z.testbit m i); reflexivity.
Qed.

Lemma land_after_clear (p m : Z) :
  Z.land (u8 (Z.land p (Z.lnot (u8 m)))) (u8 m) = 0.
Proof.
  by_bits i Hi.
  destruct (i <? 8), (Z.testbit p i), (Z.testbit m i); reflexivity.
Qed.

(** ** The flag helpers *)

Section FlagFacts.

Context {Bus : Type}.
Implicit Types c : CPU Bus.

Lemma IsFlagSet_spec (mask : Z) c :
  result (IsFlagSet mask) c = (Z.land (_p c) (u8 mask) =? u8 mask).
Proof. reflexivity. Qed.

Lemma SetFlags_p (mask : Z) c :
  _p (exec (SetFlags mask) c) = u8 (Z.lor (_p c) (u8 mask)).
Proof. reflexivity. Qed.

Lemma ClearFlags_p (mask : Z) c :
  _p (exec (ClearFlags mask) c) = u8 (Z.land (_p c) (Z.lnot (u8 mask))).
Proof. reflexivity. Qed.

(** C8 (as amended): for every 8-bit mask [m] and every status register,
    [IsFlagSet m] is true after [SetFlags m]; it is false after
    [ClearFlags m] when [m] is not zero, and true when [m] is zero; and
    [IsFlagSet mask] is true exactly when [(P & mask) == mask]. *)
Theorem flags_set_clear_query (m : Z) c :
  is_u8 m ->
  result (IsFlagSet m) (exec (SetFlags m) c) = true /\
  result (IsFlagSet m) (exec (ClearFlags m) c) = (m =? 0) /\
  (result (IsFlagSet m) c = true <-> Z.land (_p c) m = m).
Proof.
  intros Hm. rewrite !IsFlagSet_spec, SetFlags_p, ClearFlags_p.
  rewrite land_after_set, land_after_clear, (u8_id m Hm).
  split; [apply Z.eqb_refl | split; [apply Z.eqb_sym | apply Z.eqb_eq]].
Qed.

End FlagFacts.

(** ** Frame rules of the monad *)

Section Frames.

Context {Bus : Type}.
Variable bus_Read : Bus -> Z -> Z * Bus.
Variable bus_Write : Bus -> Z -> Z -> Bus.
Implicit Types c : CPU Bus.

Section Field.

Context {F : Type}.
Variable field : CPU Bus -> F.

Lemma preserves_ret {A : Type} (a : A) : preserves field (ret a).
Proof. intros c. reflexivity. Qed.

Lemma preserves_get {A : Type} (g : CPU Bus -> A) :
  preserves field (get g).
Proof. intros c. reflexivity. Qed.

Lemma preserves_bind {A B : Type} (m : M A) (k : A -> M B) :
  preserves field m -> (forall a, preserves field (k a)) ->
  preserves field (bind m k).
Proof.
  intros Hm Hk c. unfold preserves, exec in *. unfold bind.
  rewrite Hk. apply Hm.
Qed.

Lemma preserves_when (b : bool) (m : M unit) :
  preserves field m -> preserves field (when b m).
Proof. intros Hm. destruct b; [exact Hm | apply preserves_ret]. Qed.

Lemma preserves_if {A : Type} (b : bool) (m1 m2 : M A) :
  preserves field m1 -> preserves field m2 ->
  preserves field (if b then m1 else m2).
Proof. intros H1 H2. destruct b; assumption. Qed.

Lemma preserves_modify (g : CPU Bus -> CPU Bus) :
  (forall c, field (g c) = field c) -> preserves field (modify g).
Proof. intros Hg c. apply Hg. Qed.

(** Each primitive preserves the fields that do not depend on what it
    writes. *)

Lemma preserves_Read (address : Z) :
  (forall b c, field (with_bus b c) = field c) ->
  preserves field (Read bus_Read address).
Proof. intros H c. apply H. Qed.

Lemma preserves_Write (address data : Z) :
  (forall b c, field (with_bus b c) = field c) ->
  preserves field (Write bus_Write address data).
Proof. intros H c. apply H. Qed.

Lemma preserves_pc_post_inc :
  (forall v c, field (with_pc v c) = field c) ->
  preserves field pc_post_inc.
Proof. intros H c. apply H. Qed.

Lemma preserves_cycles_inc :
  (forall v c, field (with_cycles v c) = field c) ->
  preserves field cycles_inc.
Proof. intros H c. apply H. Qed.

Lemma preserves_cycles_add (n : Z) :
  (forall v c, field (with_cycles v c) = field c) ->
  preserves field (cycles_add n).
Proof. intros H c. apply H. Qed.

Lemma preserves_SetFlags (mask : Z) :
  (forall v c, field (with_p v c) = field c) ->
  preserves field (SetFlags mask).
Proof. intros H c. apply H. Qed.

Lemma preserves_ClearFlags (mask : Z) :
  (forall v c, field (with_p v c) = field c) ->
  preserves field (ClearFlags mask).
Proof. intros H c. apply H. Qed.

Lemma preserves_IsFlagSet (mask : Z) : preserves field (IsFlagSet mask).
Proof. intros c. reflexivity. Qed.

Lemma preserves_Fetch :
  (forall b c, field (with_bus b c) = field c) ->
  (forall v c, field (with_pc v c) = field c) ->
  preserves field (Fetch bus_Read).
Proof.
  intros Hb Hpc. apply preserves_bind.
  - apply preserves_pc_post_inc, Hpc.
  - intros pc. apply preserves_Read, Hb.
Qed.

End Field.

End Frames.

(** Walks a member function along its binds and conditionals; the leaves
    that touch no field of interest are closed by computation. *)
Ltac frame_step :=
  first
    [ apply preserves_ret
    | apply preserves_get
    | apply preserves_IsFlagSet
    | apply preserves_bind; [ | intro ]
    | apply preserves_when
    | apply preserves_if
    | apply preserves_Read; intros ? ?; reflexivity
    | apply preserves_Write; intros ? ?; reflexivity
    | apply preserves_pc_post_inc; intros ? ?; reflexivity
    | apply preserves_cycles_inc; intros ? ?; reflexivity
    | apply preserves_cycles_add; intros ? ?; reflexivity
    | apply preserves_SetFlags; intros ? ?; reflexivity
    | apply preserves_ClearFlags; intros ? ?; reflexivity
    | apply preserves_modify; intros ?; reflexivity ].

Ltac frame := repeat frame_step.

(** ** The stack pointer *)

Section StackPointer.

Context {Bus : Type}.
Variable bus_Read : Bus -> Z -> Z * Bus.
Variable bus_Write : Bus -> Z -> Z -> Bus.
Implicit Types c : CPU Bus.

Lemma addressing_mode_preserves_s (m : AddressingModeMethod) :
  preserves _s (call_addressing_mode bus_Read m).
Proof.
  destruct m; cbn [call_addressing_mode];
    unfold IMP, IMM, ZPG, ZPGX, ZPGY, ABS, ABSX, ABSY, IND, INDX, INDY, REL;
    frame.
Qed.

Lemma SetZeroAndNegativeFlags_preserves_s (value : Z) :
  preserves (Bus := Bus) _s (SetZeroAndNegativeFlags value).
Proof. unfold SetZeroAndNegativeFlags. frame. Qed.

Lemma instruction_preserves_s (i : InstructionMethod) (address : Z) :
  preserves _s (call_instruction bus_Read bus_Write i address).
Proof.
  destruct i; cbn [call_instruction];
    unfold LDA, LDX, LDY, STA, STX, STY, ADC, SBC, INC, DEC, INX, INY,
      DEX, DEY, LoadRegister, StoreRegister;
    frame; apply SetZeroAndNegativeFlags_preserves_s.
Qed.

Lemma Tick_preserves_s : preserves _s (Tick bus_Read bus_Write).
Proof.
  unfold Tick. apply preserves_bind.
  - apply preserves_Fetch; intros ? ?; reflexivity.
  - intros opcode. cbv zeta.
    destruct (instructionMethod (_opcodeTable opcode)) as [i|];
      destruct (addressingModeMethod (_opcodeTable opcode)) as [m|];
      unfold print_cerr; frame.
    + apply addressing_mode_preserves_s.
    + apply instruction_preserves_s.
Qed.

(** C10: for every opcode and every CPU and bus state, [Tick] leaves S
    unchanged, and so does every addressing mode and every instruction
    handler; [Reset] sets S to 0xFD, [SetStackPointer] sets it to its
    argument, and the other setters leave it alone. *)
Theorem stack_pointer_frame :
  (forall c, _s (exec (Tick bus_Read bus_Write) c) = _s c) /\
  (forall m c, _s (exec (call_addressing_mode bus_Read m) c) = _s c) /\
  (forall i address c,
      _s (exec (call_instruction bus_Read bus_Write i address) c) = _s c) /\
  (forall c, _s (exec (Reset bus_Read) c) = 0xFD) /\
  (forall value c, _s (exec (SetStackPointer value) c) = u8 value) /\
  (forall value c,
      _s (exec (SetAccumulator value) c) = _s c /\
      _s (exec (SetXRegister value) c) = _s c /\
      _s (exec (SetYRegister value) c) = _s c /\
      _s (exec (SetStatusRegister value) c) = _s c /\
      _s (exec (SetProgramCounter value) c) = _s c /\
      _s (exec (SetCycles value) c) = _s c).
Proof.
  split; [exact Tick_preserves_s |].
  split; [exact addressing_mode_preserves_s |].
  split; [exact instruction_preserves_s |].
  split; [reflexivity |].
  split; [reflexivity |].
  intros value c. repeat split.
Qed.

End StackPointer.

(** An instance of C8: the mask Carry|Negative on the machine after reset. *)
Lemma flags_set_clear_query_witness :
  is_u8 0x81 /\
  (result (IsFlagSet 0x81) (exec (SetFlags 0x81) (flat_machine 0x8000 []))
   = true /\
   result (IsFlagSet 0x81) (exec (ClearFlags 0x81) (flat_machine 0x8000 []))
   = (0x81 =? 0) /\
   (result (IsFlagSet 0x81) (flat_machine 0x8000 []) = true <->
    Z.land (_p (flat_machine 0x8000 [])) 0x81 = 0x81)).
Proof.
  split.
  - unfold is_u8. lia.
  - apply (flags_set_clear_query 0x81 (flat_machine 0x8000 [])).
    unfold is_u8. lia.
Defined.

(** C8 as stated fails at the empty mask: after [ClearFlags 0] the query
    [IsFlagSet 0] compares [P & 0] with [0] and answers true. *)
Lemma clear_then_query_empty_mask :
  is_u8 0 /\
  result (IsFlagSet 0) (exec (ClearFlags 0) (flat_machine 0x8000 [])) = true.
Proof. split; [unfold is_u8; lia | reflexivity]. Qed.

(** ** The decode table *)

Lemma fold_table_set_lookup (l : list (Z * InstructionData))
    (t : OpcodeTable) (opcode : Z) :
  let t' := fold_left (fun t ke => table_set t (fst ke) (snd ke)) l t in
  t' opcode = t opcode \/ exists e, In (opcode, e) l /\ t' opcode = e.
Proof.
  revert t. induction l as [| [k e] l IH]; intros t; cbn.
  - left. reflexivity.
  - destruct (IH (table_set t k e)) as [Heq | [e' [Hin Heq]]].
    + change (table_set t k e opcode)
        with (if opcode =? k then e else t opcode) in Heq.
      destruct (Z.eqb_spec opcode k) as [-> | Hne].
      * right. exists e. split; [left; reflexivity | exact Heq].
      * left. exact Heq.
    + right. exists e'. split; [right; exact Hin | exact Heq].
Qed.

(** Every entry is the null entry or the right-hand side of one of the
    assignments of the constructor. *)
Lemma opcodeTable_lookup (opcode : Z) :
  _opcodeTable opcode = null_entry \/
  In (opcode, _opcodeTable opcode) assignments.
Proof.
  destruct (fold_table_set_lookup assignments (fun _ => null_entry) opcode)
    as [Heq | [e [Hin Heq]]].
  - left. exact Heq.
  - right. unfold _opcodeTable. rewrite Heq. exact Hin.
Qed.

Lemma assignments_checked :
  forallb (fun ke =>
             implemented (fst ke) &&
             existsb (Z.eqb (fst ke)) implemented_opcodes &&
             (2 <=? cycles (snd ke)) && (cycles (snd ke) <=? 7))
          assignments = true.
Proof. vm_compute. reflexivity. Qed.

Lemma assigned_opcode (opcode : Z) (e : InstructionData) :
  In (opcode, e) assignments ->
  implemented opcode = true /\ In opcode implemented_opcodes /\
  2 <= cycles e <= 7.
Proof.
  intros Hin.
  pose proof (proj1 (forallb_forall _ _) assignments_checked _ Hin) as H.
  cbn [fst snd] in H.
  apply andb_prop in H. destruct H as [H H4].
  apply andb_prop in H. destruct H as [H H3].
  apply andb_prop in H. destruct H as [H1 H2].
  apply existsb_exists in H2. destruct H2 as [k [Hk Heq]].
  apply Z.eqb_eq in Heq. subst k.
  split; [exact H1 | split; [exact Hk | lia]].
Qed.

Lemma opcodeTable_cycles (opcode : Z) : 0 <= cycles (_opcodeTable opcode) <= 7.
Proof.
  destruct (opcodeTable_lookup opcode) as [Heq | Hin].
  - rewrite Heq. cbn. lia.
  - apply assigned_opcode in Hin. lia.
Qed.

Lemma In_implemented_opcodes (opcode : Z) :
  In opcode implemented_opcodes -> implemented opcode = true.
Proof.
  unfold implemented_opcodes. intros H. apply filter_In in H. apply H.
Qed.

Lemma implemented_opcodes_list :
  implemented_opcodes =
    [ 0x61; 0x65; 0x69; 0x6D; 0x71; 0x75; 0x79; 0x7D; 0x81; 0x84; 0x85; 0x86;
      0x88; 0x8C; 0x8D; 0x8E; 0x91; 0x94; 0x95; 0x96; 0x99; 0x9D; 0xA0; 0xA1;
      0xA2; 0xA4; 0xA5; 0xA6; 0xA9; 0xAC; 0xAD; 0xAE; 0xB1; 0xB4; 0xB5; 0xB6;
      0xB9; 0xBC; 0xBD; 0xBE; 0xC6; 0xC8; 0xCA; 0xCE; 0xD6; 0xDE; 0xE1; 0xE5;
      0xE6; 0xE8; 0xE9; 0xED; 0xEE; 0xF1; 0xF5; 0xF6; 0xF9; 0xFD; 0xFE ].
Proof. vm_compute. reflexivity. Qed.

Lemma implemented_opcodes_length : List.length implemented_opcodes = 59%nat.
Proof. vm_compute. reflexivity. Qed.

Lemma opcodes_per_mnemonic :
  map (fun i => List.length (opcodes_of i))
      [ iLDA; iLDX; iLDY; iSTA; iSTX; iSTY; iADC; iSBC; iINC; iDEC;
        iINX; iINY; iDEX; iDEY ]
  = [ 8; 5; 5; 7; 3; 3; 8; 8; 4; 4; 1; 1; 1; 1 ]%nat.
Proof. vm_compute. reflexivity. Qed.

Lemma handlers_null_together (opcode : Z) :
  match instructionMethod (_opcodeTable opcode),
        addressingModeMethod (_opcodeTable opcode) with
  | Some _, Some _ => In opcode implemented_opcodes
  | None, None => ~ In opcode implemented_opcodes
  | _, _ => False
  end.
Proof.
  destruct (opcodeTable_lookup opcode) as [Heq | Hin].
  - rewrite Heq. unfold null_entry.
    cbn [instructionMethod addressingModeMethod]. intros Hin.
    apply In_implemented_opcodes in Hin.
    unfold implemented in Hin. rewrite Heq in Hin. discriminate Hin.
  - apply assigned_opcode in Hin. destruct Hin as [Himpl [Hin _]].
    unfold implemented in Himpl.
    destruct (instructionMethod (_opcodeTable opcode));
      destruct (addressingModeMethod (_opcodeTable opcode));
      first [discriminate Himpl | exact Hin].
Qed.

(** C6 (as amended): the decode table holds non-null handlers for exactly 59
    opcodes: 8 of LDA, 5 of LDX, 5 of LDY, 7 of STA, 3 of STX, 3 of STY, 8 of
    ADC, 8 of SBC, 4 of INC, 4 of DEC and one each of INX, INY, DEX and DEY;
    every other entry holds two null handlers, and no entry holds just
    one. *)
Theorem decode_table_census :
  implemented_opcodes =
    [ 0x61; 0x65; 0x69; 0x6D; 0x71; 0x75; 0x79; 0x7D; 0x81; 0x84; 0x85; 0x86;
      0x88; 0x8C; 0x8D; 0x8E; 0x91; 0x94; 0x95; 0x96; 0x99; 0x9D; 0xA0; 0xA1;
      0xA2; 0xA4; 0xA5; 0xA6; 0xA9; 0xAC; 0xAD; 0xAE; 0xB1; 0xB4; 0xB5; 0xB6;
      0xB9; 0xBC; 0xBD; 0xBE; 0xC6; 0xC8; 0xCA; 0xCE; 0xD6; 0xDE; 0xE1; 0xE5;
      0xE6; 0xE8; 0xE9; 0xED; 0xEE; 0xF1; 0xF5; 0xF6; 0xF9; 0xFD; 0xFE ] /\
  List.length implemented_opcodes = 59%nat /\
  map (fun i => List.length (opcodes_of i))
      [ iLDA; iLDX; iLDY; iSTA; iSTX; iSTY; iADC; iSBC; iINC; iDEC;
        iINX; iINY; iDEX; iDEY ]
  = [ 8; 5; 5; 7; 3; 3; 8; 8; 4; 4; 1; 1; 1; 1 ]%nat /\
  (forall opcode,
      match instructionMethod (_opcodeTable opcode),
            addressingModeMethod (_opcodeTable opcode) with
      | Some _, Some _ => In opcode implemented_opcodes
      | None, None => ~ In opcode implemented_opcodes
      | _, _ => False
      end).
Proof.
  exact (conj implemented_opcodes_list
           (conj implemented_opcodes_length
              (conj opcodes_per_mnemonic handlers_null_together))).
Qed.

(** C6 as stated fails on the count: the assignments of the constructor
    fill 59 entries, not 58. *)
Lemma decode_table_not_58 : List.length implemented_opcodes <> 58%nat.
Proof. rewrite implemented_opcodes_length. discriminate. Qed.

(** ** The diagnostic *)

Lemma opcodes_bytes (n : Z) : is_u8 n -> In n opcodes.
Proof.
  unfold is_u8, opcodes. intros H. apply in_map_iff.
  exists (Z.to_nat n). split; [lia | apply in_seq; lia].
Qed.

Lemma bad_opcode_message_decodes :
  forallb (fun o1 =>
             forallb (fun o2 =>
                        implb (String.eqb (bad_opcode_message o1)
                                          (bad_opcode_message o2))
                              (o1 =? o2))
                     opcodes)
          opcodes = true.
Proof. vm_compute. reflexivity. Qed.

(** The message names the opcode: two bytes with the same message are the
    same byte. *)
Lemma bad_opcode_message_inj (o1 o2 : Z) :
  is_u8 o1 -> is_u8 o2 ->
  bad_opcode_message o1 = bad_opcode_message o2 -> o1 = o2.
Proof.
  intros H1 H2 Heq.
  pose proof (proj1 (forallb_forall _ _) bad_opcode_message_decodes
                    o1 (opcodes_bytes o1 H1)) as H.
  pose proof (proj1 (forallb_forall _ _) H o2 (opcodes_bytes o2 H2)) as H'.
  cbv beta in H'. rewrite Heq, String.eqb_refl in H'. cbn in H'.
  apply Z.eqb_eq. exact H'.
Qed.

(** ** Unimplemented opcodes *)

Section Unimplemented.

Context {Bus : Type}.
Variable bus_Read : Bus -> Z -> Z * Bus.
Variable bus_Write : Bus -> Z -> Z -> Bus.
Implicit Types c : CPU Bus.

Lemma Fetch_result c :
  result (Fetch bus_Read) c = u8 (fst (bus_Read (_bus c) (u16 (_pc c)))).
Proof. reflexivity. Qed.

Lemma Fetch_exec c :
  exec (Fetch bus_Read) c =
  with_bus (snd (bus_Read (_bus c) (u16 (_pc c))))
           (with_pc (u16 (_pc c + 1)) c).
Proof. reflexivity. Qed.

Lemma Tick_bad_opcode c :
  let opcode := result (Fetch bus_Read) c in
  instructionMethod (_opcodeTable opcode) = None \/
  addressingModeMethod (_opcodeTable opcode) = None ->
  exec (Tick bus_Read bus_Write) c =
  with_cerr (cerr c ++ bad_opcode_message opcode)%string
            (exec (Fetch bus_Read) c).
Proof.
  intros opcode Hnull.
  unfold Tick, exec, bind. fold opcode. fold (result (Fetch bus_Read) c).
  fold opcode.
  destruct (instructionMethod (_opcodeTable opcode)) as [i|];
    destruct (addressingModeMethod (_opcodeTable opcode)) as [m|];
    try reflexivity.
  destruct Hnull; discriminate.
Qed.

(** C7: when the entry of the fetched opcode has a null instruction handler
    or a null addressing-mode handler, [Tick] appends to standard error the
    message that names the opcode, leaves PC one past the opcode (in 16
    bits), leaves the bus as the single read of the fetch left it (no
    write, no further read), and leaves the cycle counter, A, X, Y, S and P
    unchanged.  [Tick] is a total function: it returns a state for every
    input. *)
Theorem Tick_unimplemented_opcode c :
  let opcode := result (Fetch bus_Read) c in
  let c' := exec (Tick bus_Read bus_Write) c in
  instructionMethod (_opcodeTable opcode) = None \/
  addressingModeMethod (_opcodeTable opcode) = None ->
  cerr c' = (cerr c ++ bad_opcode_message opcode)%string /\
  (forall o, is_u8 o ->
             bad_opcode_message o = bad_opcode_message opcode -> o = opcode) /\
  _pc c' = u16 (_pc c + 1) /\
  _bus c' = snd (bus_Read (_bus c) (u16 (_pc c))) /\
  _cycles c' = _cycles c /\
  _a c' = _a c /\ _x c' = _x c /\ _y c' = _y c /\
  _s c' = _s c /\ _p c' = _p c /\
  _currentPageCrossPenalty c' = _currentPageCrossPenalty c.
Proof.
  intros opcode c' Hnull. subst c'.
  rewrite (Tick_bad_opcode c Hnull). fold opcode.
  split; [reflexivity |].
  split.
  - intros o Ho Heq. apply bad_opcode_message_inj; [exact Ho | | exact Heq].
    unfold opcode. rewrite Fetch_result. apply u8_range.
  - repeat split.
Qed.

End Unimplemented.

(** An instance of C7: opcode 0x02 at 0x8000 on the recording bus.  The
    access log holds the fetch and nothing else. *)
Lemma Tick_unimplemented_opcode_witness :
  (instructionMethod
     (_opcodeTable (result (Fetch rec_Read) bad_opcode_machine)) = None \/
   addressingModeMethod
     (_opcodeTable (result (Fetch rec_Read) bad_opcode_machine)) = None) /\
  cerr (rec_Tick bad_opcode_machine) = bad_opcode_message 0x02 /\
  _pc (rec_Tick bad_opcode_machine) = 0x8001 /\
  snd (_bus (rec_Tick bad_opcode_machine)) = [BusRead 0x8000] /\
  _cycles (rec_Tick bad_opcode_machine) = 0.
Proof.
  assert (Hnull :
    instructionMethod
      (_opcodeTable (result (Fetch rec_Read) bad_opcode_machine)) = None \/
    addressingModeMethod
      (_opcodeTable (result (Fetch rec_Read) bad_opcode_machine)) = None).
  { left. reflexivity. }
  split; [exact Hnull |].
  destruct (Tick_unimplemented_opcode rec_Read rec_Write
                                      bad_opcode_machine Hnull)
    as (Herr & _ & Hpc & Hbus & Hcyc & _).
  unfold rec_Tick.
  rewrite Herr, Hpc, Hbus, Hcyc.
  repeat split.
Defined.

(** ** Words from bytes *)

Lemma u8_u8 (n : Z) : u8 (u8 n) = u8 n.
Proof. apply u8_id, u8_range. Qed.

Lemma bytes_disjoint (hi lo : Z) :
  is_u8 lo -> Z.land (Z.shiftl hi 8) lo = 0.
Proof.
  intros Hlo. by_bits i Hi. rewrite Z.shiftl_spec by lia.
  destruct (Z.ltb_spec i 8) as [Hlt | Hge].
  - rewrite (Z.testbit_neg_r hi) by lia. reflexivity.
  - rewrite (is_u8_high_bits lo i Hlo Hge). apply andb_false_r.
Qed.

(** [( high << 8 ) | low] is the little-endian word. *)
Lemma word_of_bytes (hi lo : Z) :
  is_u8 hi -> is_u8 lo -> u16 (Z.lor (Z.shiftl hi 8) lo) = hi * 256 + lo.
Proof.
  intros Hhi Hlo.
  pose proof (Z.add_lor_land (Z.shiftl hi 8) lo) as Hadd.
  rewrite (bytes_disjoint hi lo Hlo), Z.add_0_r in Hadd. rewrite Hadd.
  rewrite Z.shiftl_mul_pow2 by lia. change (2 ^ 8) with 256.
  apply u16_id. unfold is_u16, is_u8 in *. lia.
Qed.

Lemma word_low_byte (hi lo : Z) :
  is_u8 lo -> Z.land (hi * 256 + lo) 0xFF = lo.
Proof.
  intros Hlo. change 0xFF with (Z.ones 8). rewrite Z.land_ones by lia.
  change (2 ^ 8) with 256. rewrite Z.add_comm, Z.mod_add by lia.
  apply Z.mod_small. exact Hlo.
Qed.

(** The page of a word is its high byte. *)
Lemma word_page (hi lo : Z) :
  is_u8 hi -> is_u8 lo ->
  Z.land (u16 (Z.lor (Z.shiftl hi 8) lo)) 0xFF00 = Z.shiftl hi 8.
Proof.
  intros Hhi Hlo. change 0xFF00 with (Z.shiftl (Z.ones 8) 8).
  by_bits i Hi. rewrite !Z.shiftl_spec by lia.
  destruct (Z.ltb_spec i 8) as [Hlt | Hge].
  - rewrite (Z.testbit_neg_r hi), (Z.testbit_neg_r (Z.ones 8)) by lia.
    apply andb_false_r.
  - rewrite (is_u8_high_bits lo i Hlo Hge), orb_false_r.
    rewrite Z.testbit_ones_nonneg by lia.
    destruct (Z.ltb_spec i 16) as [Hlt16 | Hge16]; cbn [andb].
    + destruct (Z.ltb_spec (i - 8) 8); [apply andb_true_r | lia].
    + symmetry. apply (is_u8_high_bits hi (i - 8) Hhi). lia.
Qed.

(** ** Relative and indirect addressing *)

Section Addressing.

Context {Bus : Type}.
Variable bus_Read : Bus -> Z -> Z * Bus.
Implicit Types c : CPU Bus.

Lemma Read_result_u8 (address : Z) c : is_u8 (result (Read bus_Read address) c).
Proof. apply u8_range. Qed.

Lemma s8_range (n : Z) : -128 <= s8 n <= 127.
Proof.
  unfold s8. pose proof (u8_range n) as H. unfold is_u8 in H.
  destruct (Z.ltb_spec (u8 n) 128); lia.
Qed.

(** C5 (as amended): with PC = p on entry, [REL] reads one offset byte at p,
    reads it as a signed two's-complement number in [-128, +127], leaves
    PC = p + 1 (in 16 bits) and the bus as that one read left it, and
    returns (p + signed(byte)) mod 2^16: the offset is added to the address
    of the offset byte itself. *)
Theorem REL_address c :
  let p := _pc c in
  let byte := result (Read bus_Read p) c in
  result (REL bus_Read) c = (p + s8 byte) mod 2 ^ 16 /\
  s8 byte = (if byte <? 128 then byte else byte - 256) /\
  -128 <= s8 byte <= 127 /\
  _pc (exec (REL bus_Read) c) = u16 (p + 1) /\
  exec (REL bus_Read) c = with_pc (u16 (p + 1)) (exec (Read bus_Read p) c).
Proof.
  intros p byte.
  split; [reflexivity |].
  split.
  - unfold s8. rewrite (u8_id byte (Read_result_u8 p c)). reflexivity.
  - split; [apply s8_range |]. split; reflexivity.
Qed.

(** C4: let the two bytes at PC form the pointer [ptr].  [IND] reads the
    low byte of the target at [ptr]; it reads the high byte at
    [ptr & 0xFF00] when the low byte of [ptr] is 0xFF and at [ptr + 1]
    otherwise; with [ptr] = 0x02FF the high byte comes from 0x0200. *)
Theorem IND_page_wrap c :
  let ptr := result (ABS bus_Read) c in
  let c2 := exec (ABS bus_Read) c in
  let low := result (Read bus_Read ptr) c2 in
  let c3 := exec (Read bus_Read ptr) c2 in
  let target address := result (Read bus_Read address) c3 * 256 + low in
  let high_address :=
    if Z.land ptr 0xFF =? 0xFF then Z.land ptr 0xFF00 else ptr + 1 in
  result (IND bus_Read) c = target high_address /\
  exec (IND bus_Read) c = exec (Read bus_Read high_address) c3 /\
  (Z.land ptr 0xFF = 0xFF ->
   result (IND bus_Read) c = target (Z.land ptr 0xFF00)) /\
  (Z.land ptr 0xFF <> 0xFF -> result (IND bus_Read) c = target (ptr + 1)) /\
  (ptr = 0x02FF -> result (IND bus_Read) c = target 0x0200).
Proof.
  intros ptr c2 low c3 target high_address.
  set (ptr_low := result (Read bus_Read (_pc c)) c).
  set (ptr_high :=
         result (Read bus_Read (u16 (_pc c + 1)))
                (exec (Fetch bus_Read) c)).
  assert (Hlo : is_u8 ptr_low) by apply Read_result_u8.
  assert (Hhi : is_u8 ptr_high) by apply Read_result_u8.
  assert (Hptr : ptr = ptr_high * 256 + ptr_low).
  { unfold ptr. rewrite <- (word_of_bytes _ _ Hhi Hlo). reflexivity. }
  assert (Hlow : Z.land ptr 0xFF = ptr_low).
  { rewrite Hptr. apply word_low_byte. exact Hlo. }
  assert (Hres : result (IND bus_Read) c = target high_address /\
                 exec (IND bus_Read) c = exec (Read bus_Read high_address) c3).
  { unfold high_address. rewrite Hlow.
    unfold target, low, c3, c2, ptr.
    unfold IND, ABS, result, exec, bind, ret. cbn [fst snd].
    change (fst (Read bus_Read (fst (pc_post_inc c)) (snd (pc_post_inc c))))
      with ptr_low.
    destruct (ptr_low =? 0xFF).
    - split; [| reflexivity].
      apply word_of_bytes; apply u8_range.
    - split; [| reflexivity].
      apply word_of_bytes; apply u8_range. }
  destruct Hres as [Hres Hexec].
  split; [exact Hres |]. split; [exact Hexec |].
  unfold high_address in Hres. repeat split.
  - intros H. rewrite H in Hres. exact Hres.
  - intros H. apply Z.eqb_neq in H. rewrite H in Hres. exact Hres.
  - intros H. rewrite H in Hres. exact Hres.
Qed.

End Addressing.

(** ** The status register under the instructions *)

Section StatusRegister.

Context {Bus : Type}.
Variable bus_Read : Bus -> Z -> Z * Bus.
Variable bus_Write : Bus -> Z -> Z -> Bus.
Implicit Types c : CPU Bus.

Lemma apart_bits (flags mask i : Z) :
  apart flags mask = true -> 0 <= i ->
  Z.testbit mask i = true ->
  i < 8 /\ Z.testbit flags i = false.
Proof.
  unfold apart. intros H Hi Hm.
  apply andb_prop in H. destruct H as [H H0].
  apply andb_prop in H. destruct H as [Hlo Hhi].
  apply Z.leb_le in Hlo. apply Z.ltb_lt in Hhi. apply Z.eqb_eq in H0.
  assert (Hlt : i < 8).
  { destruct (Z_lt_le_dec i 8) as [Hlt | Hge]; [exact Hlt |].
    rewrite (is_u8_high_bits mask i) in Hm; [discriminate | | exact Hge].
    unfold is_u8. lia. }
  split; [exact Hlt |].
  pose proof (f_equal (fun z => Z.testbit z i) H0) as Hbit. cbv beta in Hbit.
  rewrite Z.land_spec, u8_testbit, Z.bits_0, Hm in Hbit by lia.
  destruct (Z.ltb_spec i 8); [| lia].
  destruct (Z.testbit flags i); [discriminate | reflexivity].
Qed.

Lemma SetFlags_preserves_P_bits (flags mask : Z) :
  apart flags mask = true ->
  preserves (Bus := Bus) (P_bits mask) (SetFlags flags).
Proof.
  intros H c. unfold P_bits. rewrite SetFlags_p.
  by_bits i Hi.
  destruct (Z.testbit mask i) eqn:Hm; [| rewrite !andb_false_r; reflexivity].
  destruct (apart_bits flags mask i H Hi Hm) as [Hlt Hf]. rewrite Hf.
  destruct (Z.ltb_spec i 8); [| lia].
  destruct (Z.testbit (_p c) i); reflexivity.
Qed.

Lemma ClearFlags_preserves_P_bits (flags mask : Z) :
  apart flags mask = true ->
  preserves (Bus := Bus) (P_bits mask) (ClearFlags flags).
Proof.
  intros H c. unfold P_bits. rewrite ClearFlags_p.
  by_bits i Hi.
  destruct (Z.testbit mask i) eqn:Hm; [| rewrite !andb_false_r; reflexivity].
  destruct (apart_bits flags mask i H Hi Hm) as [Hlt Hf]. rewrite Hf.
  destruct (Z.ltb_spec i 8); [| lia].
  destruct (Z.testbit (_p c) i); reflexivity.
Qed.

(** The frame walk for a selection of bits of P. *)
Ltac frame_flags :=
  repeat first
    [ frame_step
    | apply SetFlags_preserves_P_bits; reflexivity
    | apply ClearFlags_preserves_P_bits; reflexivity ].

Ltac unfold_instruction :=
  unfold LDA, LDX, LDY, STA, STX, STY, ADC, SBC, INC, DEC, INX, INY, DEX, DEY,
    LoadRegister, StoreRegister, SetZeroAndNegativeFlags.

Ltac unfold_addressing_mode :=
  unfold IMP, IMM, ZPG, ZPGX, ZPGY, ABS, ABSX, ABSY, IND, INDX, INDY, REL.

Lemma addressing_mode_preserves_p (m : AddressingModeMethod) :
  preserves _p (call_addressing_mode bus_Read m).
Proof.
  destruct m; cbn [call_addressing_mode]; unfold_addressing_mode; frame.
Qed.

Lemma instruction_preserves_IDB (i : InstructionMethod) (address : Z) :
  preserves (P_bits IDB) (call_instruction bus_Read bus_Write i address).
Proof.
  destruct i; cbn [call_instruction]; unfold_instruction; frame_flags.
Qed.

Lemma Tick_preserves_IDB :
  preserves (P_bits IDB) (Tick bus_Read bus_Write).
Proof.
  unfold Tick. apply preserves_bind.
  - apply preserves_Fetch; intros ? ?; reflexivity.
  - intros opcode. cbv zeta.
    destruct (instructionMethod (_opcodeTable opcode)) as [i|];
      destruct (addressingModeMethod (_opcodeTable opcode)) as [m|];
      unfold print_cerr; frame.
    + intros c. unfold P_bits. f_equal. apply addressing_mode_preserves_p.
    + apply instruction_preserves_IDB.
Qed.

(** C9: the loads, INC/DEC and INX/INY/DEX/DEY change no bit of P but Zero
    and Negative; the stores change no bit of P; ADC and SBC change no bit
    of P but Carry, Zero, Overflow and Negative.  So every instruction
    handler, and every [Tick] whatever the opcode, leaves bits 2, 3 and 4
    (InterruptDisable, Decimal, Break) as they were. *)
Theorem status_bits_frame :
  (forall address,
      preserves (P_bits (all_but ZN)) (LDA bus_Read address) /\
      preserves (P_bits (all_but ZN)) (LDX bus_Read address) /\
      preserves (P_bits (all_but ZN)) (LDY bus_Read address) /\
      preserves (P_bits (all_but ZN)) (INC bus_Read bus_Write address) /\
      preserves (P_bits (all_but ZN)) (DEC bus_Read bus_Write address) /\
      preserves (Bus := Bus) (P_bits (all_but ZN)) (INX address) /\
      preserves (Bus := Bus) (P_bits (all_but ZN)) (INY address) /\
      preserves (Bus := Bus) (P_bits (all_but ZN)) (DEX address) /\
      preserves (Bus := Bus) (P_bits (all_but ZN)) (DEY address)) /\
  (forall address,
      preserves _p (STA bus_Write address) /\
      preserves _p (STX bus_Write address) /\
      preserves _p (STY bus_Write address)) /\
  (forall address,
      preserves (P_bits (all_but CZVN)) (ADC bus_Read address) /\
      preserves (P_bits (all_but CZVN)) (SBC bus_Read address)) /\
  (forall i address,
      preserves (P_bits IDB)
                (call_instruction bus_Read bus_Write i address)) /\
  preserves (P_bits IDB) (Tick bus_Read bus_Write).
Proof.
  split; [| split; [| split; [| split]]].
  - intros address. repeat split; unfold_instruction; frame_flags.
  - intros address. repeat split; unfold_instruction; frame.
  - intros address. repeat split; unfold_instruction; frame_flags.
  - exact instruction_preserves_IDB.
  - exact Tick_preserves_IDB.
Qed.

End StatusRegister.

(** ** Addition and subtraction *)

Lemma land_0x80 (x : Z) :
  Z.land x 0x80 = if Z.testbit x 7 then 0x80 else 0.
Proof.
  change 0x80 with (2 ^ 7) at 1.
  destruct (Z.testbit x 7) eqn:H7; by_bits i Hi;
    rewrite ?Z.pow2_bits_eqb by lia;
    destruct (Z.eqb_spec 7 i) as [<- | Hne].
  - rewrite H7. reflexivity.
  - rewrite andb_false_r. symmetry.
    change 0x80 with (2 ^ 7). rewrite Z.pow2_bits_eqb by lia.
    apply Z.eqb_neq. exact Hne.
  - rewrite H7. reflexivity.
  - apply andb_false_r.
Qed.

Lemma sign_bit (x : Z) :
  u8 (Z.land x 0x80) = if Z.testbit x 7 then 0x80 else 0.
Proof. rewrite land_0x80. destruct (Z.testbit x 7); reflexivity. Qed.

Lemma sign_bit_eqb (x y : Z) :
  (u8 (Z.land x 0x80) =? u8 (Z.land y 0x80))
  = Bool.eqb (Z.testbit x 7) (Z.testbit y 7).
Proof.
  rewrite !sign_bit. destruct (Z.testbit x 7), (Z.testbit y 7); reflexivity.
Qed.

Lemma sign_bit_set (x : Z) : negb (Z.land x 0x80 =? 0) = Z.testbit x 7.
Proof. rewrite land_0x80. destruct (Z.testbit x 7); reflexivity. Qed.

Lemma land_0xFF (x : Z) : Z.land x 0xFF = x mod 256.
Proof. change 0xFF with (Z.ones 8). apply Z.land_ones. lia. Qed.

Lemma u16_mod_256 (x : Z) : u16 x mod 256 = x mod 256.
Proof.
  unfold u16. change (2 ^ 16) with (256 * 256).
  rewrite Z.rem_mul_r by lia. rewrite Z.mul_comm, Z.mod_add by lia.
  apply Z.mod_mod. lia.
Qed.

Lemma u16_testbit_7 (x : Z) : Z.testbit (u16 x) 7 = Z.testbit (x mod 256) 7.
Proof.
  rewrite u16_testbit by lia. change 256 with (2 ^ 8).
  rewrite Z.mod_pow2_bits_low by lia. reflexivity.
Qed.

Section Arithmetic.

Context {Bus : Type}.
Variable bus_Read : Bus -> Z -> Z * Bus.
Implicit Types c : CPU Bus.

(** [cond ? SetFlags( f ) : ClearFlags( f )], bit by bit. *)
Lemma testbit_after_assign (f : Z) (b : bool) c (i : Z) :
  0 <= i < 8 ->
  Z.testbit (_p (exec (if b then SetFlags f else ClearFlags f) c)) i
  = if Z.testbit f i then b else Z.testbit (_p c) i.
Proof.
  intros Hi. destruct b.
  - rewrite SetFlags_p. bit_rewrite.
    destruct (Z.ltb_spec i 8); [| lia].
    destruct (Z.testbit f i), (Z.testbit (_p c) i); reflexivity.
  - rewrite ClearFlags_p. bit_rewrite.
    destruct (Z.ltb_spec i 8); [| lia].
    destruct (Z.testbit f i), (Z.testbit (_p c) i); reflexivity.
Qed.

(** A one-bit flag is a bit of P. *)
Lemma flag_testbit (k : Z) c :
  0 <= k < 8 -> flag (2 ^ k) c = Z.testbit (_p c) k.
Proof.
  intros Hk. unfold flag. rewrite IsFlagSet_spec.
  assert (Hu : u8 (2 ^ k) = 2 ^ k).
  { apply u8_id. unfold is_u8. split; [lia |].
    apply Z.pow_lt_mono_r; lia. }
  rewrite Hu.
  assert (Hland : Z.land (_p c) (2 ^ k)
                  = if Z.testbit (_p c) k then 2 ^ k else 0).
  { destruct (Z.testbit (_p c) k) eqn:Hb; by_bits i Hi;
      rewrite ?Z.pow2_bits_eqb by lia;
      destruct (Z.eqb_spec k i) as [<- | Hne];
      rewrite ?Hb, ?andb_false_r; reflexivity. }
  rewrite Hland.
  assert (Hpos : 0 < 2 ^ k) by (apply Z.pow_pos_nonneg; lia).
  destruct (Z.testbit (_p c) k).
  - apply Z.eqb_refl.
  - apply Z.eqb_neq. lia.
Qed.

Lemma assign_preserves_a (b : bool) (f : Z) c :
  _a (snd ((if b then SetFlags f else ClearFlags f) c)) = _a c.
Proof. destruct b; reflexivity. Qed.

(** [ADC] as the sequence of its effects. *)
Lemma ADC_exec (address : Z) c :
  let value := result (Read bus_Read address) c in
  let carry := if flag Status.Carry c then 1 else 0 in
  let sum := u16 (_a c + value + carry) in
  exec (ADC bus_Read address) c =
  with_a (u8 (Z.land sum 0xFF))
   (exec (if negb (Z.land sum 0x80 =? 0)
          then SetFlags Status.Negative else ClearFlags Status.Negative)
    (exec (if (u8 (Z.land (_a c) 0x80) =? u8 (Z.land value 0x80)) &&
              negb (u8 (Z.land (_a c) 0x80) =? u8 (Z.land sum 0x80))
           then SetFlags Status.Overflow else ClearFlags Status.Overflow)
     (exec (if Z.land sum 0xFF =? 0
            then SetFlags Status.Zero else ClearFlags Status.Zero)
      (exec (if sum >? 0xFF
             then SetFlags Status.Carry else ClearFlags Status.Carry)
       (exec (Read bus_Read address) c))))).
Proof.
  cbv zeta. unfold ADC, exec, result, flag, bind, get. cbn [fst snd].
  rewrite !assign_preserves_a. reflexivity.
Qed.

(** [SBC] as the sequence of its effects. *)
Lemma SBC_exec (address : Z) c :
  let value := result (Read bus_Read address) c in
  let carry := if flag Status.Carry c then 0 else 1 in
  let diff := u16 (_a c - value - carry) in
  exec (SBC bus_Read address) c =
  with_a (u8 (Z.land diff 0xFF))
   (exec (if negb (Z.land diff 0x80 =? 0)
          then SetFlags Status.Negative else ClearFlags Status.Negative)
    (exec (if negb (u8 (Z.land (_a c) 0x80) =? u8 (Z.land value 0x80)) &&
              negb (u8 (Z.land (_a c) 0x80) =? u8 (Z.land diff 0x80))
           then SetFlags Status.Overflow else ClearFlags Status.Overflow)
     (exec (if Z.land diff 0xFF =? 0
            then SetFlags Status.Zero else ClearFlags Status.Zero)
      (exec (if diff <? 0x100
             then SetFlags Status.Carry else ClearFlags Status.Carry)
       (exec (Read bus_Read address) c))))).
Proof.
  cbv zeta. unfold SBC, exec, result, flag, bind, get. cbn [fst snd].
  rewrite !assign_preserves_a. reflexivity.
Qed.

Lemma flag_Carry c : flag Status.Carry c = Z.testbit (_p c) 0.
Proof. apply (flag_testbit 0). lia. Qed.

Lemma flag_Zero c : flag Status.Zero c = Z.testbit (_p c) 1.
Proof. apply (flag_testbit 1). lia. Qed.

Lemma flag_Overflow c : flag Status.Overflow c = Z.testbit (_p c) 6.
Proof. apply (flag_testbit 6). lia. Qed.

Lemma flag_Negative c : flag Status.Negative c = Z.testbit (_p c) 7.
Proof. apply (flag_testbit 7). lia. Qed.

(** What [ADC] leaves in A and in the four flags, in the terms of the
    source. *)
Lemma ADC_bits (address : Z) c :
  let value := result (Read bus_Read address) c in
  let carry := if flag Status.Carry c then 1 else 0 in
  let sum := u16 (_a c + value + carry) in
  let c' := exec (ADC bus_Read address) c in
  _a c' = u8 (Z.land sum 0xFF) /\
  flag Status.Carry c' = (sum >? 0xFF) /\
  flag Status.Zero c' = (Z.land sum 0xFF =? 0) /\
  flag Status.Overflow c' =
    (u8 (Z.land (_a c) 0x80) =? u8 (Z.land value 0x80)) &&
    negb (u8 (Z.land (_a c) 0x80) =? u8 (Z.land sum 0x80)) /\
  flag Status.Negative c' = negb (Z.land sum 0x80 =? 0).
Proof.
  intros value carry sum c'. subst c'.
  rewrite flag_Carry, flag_Zero, flag_Overflow, flag_Negative.
  rewrite (ADC_exec address c). cbv zeta. fold value carry sum.
  cbn [_a _p with_a].
  rewrite !testbit_after_assign by lia.
  repeat split.
Qed.

(** What [SBC] leaves in A and in the four flags, in the terms of the
    source. *)
Lemma SBC_bits (address : Z) c :
  let value := result (Read bus_Read address) c in
  let carry := if flag Status.Carry c then 0 else 1 in
  let diff := u16 (_a c - value - carry) in
  let c' := exec (SBC bus_Read address) c in
  _a c' = u8 (Z.land diff 0xFF) /\
  flag Status.Carry c' = (diff <? 0x100) /\
  flag Status.Zero c' = (Z.land diff 0xFF =? 0) /\
  flag Status.Overflow c' =
    negb (u8 (Z.land (_a c) 0x80) =? u8 (Z.land value 0x80)) &&
    negb (u8 (Z.land (_a c) 0x80) =? u8 (Z.land diff 0x80)) /\
  flag Status.Negative c' = negb (Z.land diff 0x80 =? 0).
Proof.
  intros value carry diff c'. subst c'.
  rewrite flag_Carry, flag_Zero, flag_Overflow, flag_Negative.
  rewrite (SBC_exec address c). cbv zeta. fold value carry diff.
  cbn [_a _p with_a].
  rewrite !testbit_after_assign by lia.
  repeat split.
Qed.

(** The outcome of [ADC] as arithmetic on A, the operand and the carry. *)
Lemma ADC_outcome (address : Z) c :
  is_u8 (_a c) ->
  let v := result (Read bus_Read address) c in
  let carry_in := if flag Status.Carry c then 1 else 0 in
  let r := (_a c + v + carry_in) mod 256 in
  let c' := exec (ADC bus_Read address) c in
  _a c' = r /\
  flag Status.Carry c' = (0xFF <? _a c + v + carry_in) /\
  flag Status.Zero c' = (r =? 0) /\
  flag Status.Overflow c' =
    Bool.eqb (Z.testbit (_a c) 7) (Z.testbit v 7) &&
    negb (Bool.eqb (Z.testbit r 7) (Z.testbit (_a c) 7)) /\
  flag Status.Negative c' = Z.testbit r 7.
Proof.
  intros Ha v carry_in r c'.
  destruct (ADC_bits address c) as (HA & HC & HZ & HV & HN).
  fold v carry_in c' in HA, HC, HZ, HV, HN.
  assert (Hv : is_u8 v) by apply Read_result_u8.
  assert (Hc : 0 <= carry_in <= 1).
  { unfold carry_in. destruct (flag Status.Carry c); lia. }
  assert (Hsum : u16 (_a c + v + carry_in) = _a c + v + carry_in).
  { apply u16_id. unfold is_u16, is_u8 in *. lia. }
  assert (Hlow : Z.land (u16 (_a c + v + carry_in)) 0xFF = r).
  { rewrite land_0xFF. apply u16_mod_256. }
  assert (Hr : is_u8 r).
  { unfold r, is_u8. apply Z.mod_pos_bound. lia. }
  assert (Hbit : Z.testbit (u16 (_a c + v + carry_in)) 7 = Z.testbit r 7).
  { apply u16_testbit_7. }
  rewrite HA, HC, HZ, HV, HN.
  rewrite !sign_bit_eqb, sign_bit_set, Hlow, Hbit, (u8_id r Hr), Hsum.
  split; [reflexivity |].
  split; [apply Z.gtb_ltb |].
  split; [reflexivity |].
  split; [| reflexivity].
  f_equal. f_equal.
  destruct (Z.testbit (_a c) 7), (Z.testbit r 7); reflexivity.
Qed.

Lemma SetFlags_Decimal_frame c :
  let c' := exec (SetFlags Status.Decimal) c in
  _a c' = _a c /\ _bus c' = _bus c /\
  flag Status.Carry c' = flag Status.Carry c.
Proof.
  cbv zeta. split; [reflexivity |]. split; [reflexivity |].
  rewrite !flag_Carry.
  apply (testbit_after_assign Status.Decimal true c 0). lia.
Qed.

Lemma ClearFlags_Decimal_frame c :
  let c' := exec (ClearFlags Status.Decimal) c in
  _a c' = _a c /\ _bus c' = _bus c /\
  flag Status.Carry c' = flag Status.Carry c.
Proof.
  cbv zeta. split; [reflexivity |]. split; [reflexivity |].
  rewrite !flag_Carry.
  apply (testbit_after_assign Status.Decimal false c 0). lia.
Qed.

(** [ADC] looks at A, the bus and the Carry flag only. *)
Lemma ADC_depends_on (address : Z) c1 c2 :
  _a c1 = _a c2 -> _bus c1 = _bus c2 ->
  flag Status.Carry c1 = flag Status.Carry c2 ->
  let c1' := exec (ADC bus_Read address) c1 in
  let c2' := exec (ADC bus_Read address) c2 in
  _a c1' = _a c2' /\
  flag Status.Carry c1' = flag Status.Carry c2' /\
  flag Status.Zero c1' = flag Status.Zero c2' /\
  flag Status.Overflow c1' = flag Status.Overflow c2' /\
  flag Status.Negative c1' = flag Status.Negative c2'.
Proof.
  intros Ha Hbus Hcarry c1' c2'.
  destruct (ADC_bits address c1) as (HA1 & HC1 & HZ1 & HV1 & HN1).
  destruct (ADC_bits address c2) as (HA2 & HC2 & HZ2 & HV2 & HN2).
  fold c1' in HA1, HC1, HZ1, HV1, HN1. fold c2' in HA2, HC2, HZ2, HV2, HN2.
  assert (Hread : result (Read bus_Read address) c1
                  = result (Read bus_Read address) c2).
  { unfold result, Read. cbn [fst]. rewrite Hbus. reflexivity. }
  rewrite HA1, HC1, HZ1, HV1, HN1, HA2, HC2, HZ2, HV2, HN2.
  rewrite Ha, Hread, Hcarry. repeat split.
Qed.

(** C2: with A a byte, v the byte read from the resolved address and
    carry_in the Carry flag as 0 or 1, [ADC] leaves A = (A + v + carry_in)
    mod 256, Carry iff A + v + carry_in > 0xFF, Zero iff the result is 0,
    Overflow iff bit 7 of A equals bit 7 of v and bit 7 of the result
    differs from bit 7 of A, Negative iff bit 7 of the result is 1; and A
    and the four flags come out the same whether the Decimal flag was set or
    clear. *)
Theorem ADC_semantics (address : Z) c :
  is_u8 (_a c) ->
  let v := result (Read bus_Read address) c in
  let carry_in := if flag Status.Carry c then 1 else 0 in
  let r := (_a c + v + carry_in) mod 256 in
  let c' := exec (ADC bus_Read address) c in
  let with_D :=
    exec (ADC bus_Read address) (exec (SetFlags Status.Decimal) c) in
  let without_D :=
    exec (ADC bus_Read address) (exec (ClearFlags Status.Decimal) c) in
  (_a c' = r /\
   (flag Status.Carry c' = true <-> _a c + v + carry_in > 0xFF) /\
   (flag Status.Zero c' = true <-> r = 0) /\
   (flag Status.Overflow c' = true <->
    Z.testbit (_a c) 7 = Z.testbit v 7 /\
    Z.testbit r 7 <> Z.testbit (_a c) 7) /\
   (flag Status.Negative c' = true <-> Z.testbit r 7 = true)) /\
  (_a with_D = _a without_D /\
   flag Status.Carry with_D = flag Status.Carry without_D /\
   flag Status.Zero with_D = flag Status.Zero without_D /\
   flag Status.Overflow with_D = flag Status.Overflow without_D /\
   flag Status.Negative with_D = flag Status.Negative without_D).
Proof.
  intros Ha v carry_in r c' with_D without_D. split.
  - destruct (ADC_outcome address c Ha) as (HA & HC & HZ & HV & HN).
    fold v carry_in r c' in HA, HC, HZ, HV, HN.
    rewrite HA, HC, HZ, HV, HN.
    split; [reflexivity |].
    split; [rewrite Z.ltb_lt; lia |].
    split; [apply Z.eqb_eq |].
    split; [| reflexivity].
    rewrite andb_true_iff, negb_true_iff, eqb_true_iff, eqb_false_iff.
    reflexivity.
  - destruct (SetFlags_Decimal_frame c) as (Ha1 & Hb1 & Hc1).
    destruct (ClearFlags_Decimal_frame c) as (Ha2 & Hb2 & Hc2).
    apply ADC_depends_on; congruence.
Qed.

Lemma complement8_sub (v : Z) : is_u8 v -> complement8 v = 255 - v.
Proof.
  unfold is_u8, complement8, u8, Z.lnot. intros Hv.
  replace (Z.pred (- v)) with (255 - v + (-1) * 2 ^ 8) by lia.
  rewrite Z.mod_add by lia. apply Z.mod_small. lia.
Qed.

Lemma complement8_sign (v : Z) :
  Z.testbit (complement8 v) 7 = negb (Z.testbit v 7).
Proof. unfold complement8. bit_rewrite. reflexivity. Qed.

(** C3: with A a byte and the Carry flag set, [SBC] on an address that holds
    v leaves the same accumulator and the same Negative, Zero, Carry and
    Overflow flags as [ADC], from the same registers, on an address that
    holds the bitwise complement of v. *)
Theorem SBC_ADC_dual (address v : Z) c (bus' : Bus) :
  is_u8 (_a c) ->
  flag Status.Carry c = true ->
  result (Read bus_Read address) c = v ->
  result (Read bus_Read address) (with_bus bus' c) = complement8 v ->
  let after_SBC := exec (SBC bus_Read address) c in
  let after_ADC := exec (ADC bus_Read address) (with_bus bus' c) in
  _a after_SBC = _a after_ADC /\
  flag Status.Negative after_SBC = flag Status.Negative after_ADC /\
  flag Status.Zero after_SBC = flag Status.Zero after_ADC /\
  flag Status.Carry after_SBC = flag Status.Carry after_ADC /\
  flag Status.Overflow after_SBC = flag Status.Overflow after_ADC.
Proof.
  intros Ha Hcarry Hv Hcv after_SBC after_ADC.
  destruct (SBC_bits address c) as (HA1 & HC1 & HZ1 & HV1 & HN1).
  destruct (ADC_bits address (with_bus bus' c))
    as (HA2 & HC2 & HZ2 & HV2 & HN2).
  fold after_SBC in HA1, HC1, HZ1, HV1, HN1.
  fold after_ADC in HA2, HC2, HZ2, HV2, HN2.
  change (flag Status.Carry (with_bus bus' c)) with (flag Status.Carry c)
    in HA2, HC2, HZ2, HV2, HN2.
  change (_a (with_bus bus' c)) with (_a c) in HA2, HC2, HZ2, HV2, HN2.
  rewrite Hcarry, Hv in HA1, HC1, HZ1, HV1, HN1.
  rewrite Hcarry, Hcv in HA2, HC2, HZ2, HV2, HN2.
  assert (Hbyte : is_u8 v).
  { rewrite <- Hv. apply Read_result_u8. }
  unfold is_u8 in Ha, Hbyte.
  set (diff := u16 (_a c - v - 0)) in *.
  set (sum := u16 (_a c + complement8 v + 1)) in *.
  assert (Hsum : sum = _a c - v + 256).
  { unfold sum. rewrite (complement8_sub v Hbyte).
    rewrite u16_id; [lia | unfold is_u16; lia]. }
  assert (Hdiff : diff = if v <=? _a c then _a c - v else _a c - v + 65536).
  { unfold diff, u16. change (2 ^ 16) with 65536.
    destruct (Z.leb_spec v (_a c)).
    - rewrite Z.mod_small; lia.
    - replace (_a c - v - 0) with (_a c - v + 65536 + (-1) * 65536) by lia.
      rewrite Z.mod_add by lia. apply Z.mod_small. lia. }
  assert (Hlow : Z.land diff 0xFF = Z.land sum 0xFF).
  { rewrite !land_0xFF. unfold diff. rewrite u16_mod_256, Hsum.
    replace (_a c - v + 256) with (_a c - v - 0 + 1 * 256) by lia.
    rewrite Z.mod_add by lia. reflexivity. }
  assert (Hbit : Z.testbit diff 7 = Z.testbit sum 7).
  { rewrite <- (sign_bit_set diff), <- (sign_bit_set sum).
    rewrite <- (Z.land_ones_low 0x80 8) by (cbn; lia).
    change (Z.ones 8) with 0xFF.
    rewrite (Z.land_comm 0x80 0xFF), !Z.land_assoc, Hlow. reflexivity. }
  rewrite HA1, HC1, HZ1, HV1, HN1, HA2, HC2, HZ2, HV2, HN2.
  rewrite !sign_bit_eqb, !sign_bit_set, complement8_sign, Hbit, Hlow.
  split; [reflexivity |].
  split; [reflexivity |].
  split; [reflexivity |].
  split.
  - rewrite Hdiff, Hsum, Z.gtb_ltb.
    destruct (Z.leb_spec v (_a c));
      destruct (Z.ltb_spec (_a c - v) 256);
      destruct (Z.ltb_spec (_a c - v + 65536) 256);
      destruct (Z.ltb_spec 255 (_a c - v + 256)); try reflexivity; lia.
  - destruct (Z.testbit (_a c) 7), (Z.testbit v 7), (Z.testbit sum 7);
      reflexivity.
Qed.

End Arithmetic.

(** ** The cycle counter *)

Section Cycles.

Context {Bus : Type}.
Variable bus_Read : Bus -> Z -> Z * Bus.
Variable bus_Write : Bus -> Z -> Z -> Bus.
Implicit Types c : CPU Bus.

Lemma instruction_preserves_cycles (i : InstructionMethod) (address : Z) :
  preserves _cycles (call_instruction bus_Read bus_Write i address).
Proof.
  destruct i; cbn [call_instruction];
    unfold LDA, LDX, LDY, STA, STX, STY, ADC, SBC, INC, DEC, INX, INY,
      DEX, DEY, LoadRegister, StoreRegister, SetZeroAndNegativeFlags;
    frame.
Qed.

Lemma cycles_when_inc (b : bool) c :
  _cycles (snd (when b cycles_inc c))
  = if b then u64 (_cycles c + 1) else _cycles c.
Proof. destruct b; reflexivity. Qed.

Lemma ABSX_cycles c :
  _cycles (exec (ABSX bus_Read) c)
  = if _currentPageCrossPenalty c && page_crossed bus_Read mABSX c
    then u64 (_cycles c + 1) else _cycles c.
Proof.
  unfold page_crossed, page, base_address, call_addressing_mode, result.
  unfold ABSX, ABS, exec, bind, ret, get. cbn [fst snd].
  rewrite cycles_when_inc. reflexivity.
Qed.

Lemma ABSY_cycles c :
  _cycles (exec (ABSY bus_Read) c)
  = if _currentPageCrossPenalty c && page_crossed bus_Read mABSY c
    then u64 (_cycles c + 1) else _cycles c.
Proof.
  unfold page_crossed, page, base_address, call_addressing_mode, result.
  unfold ABSY, ABS, exec, bind, ret, get. cbn [fst snd].
  rewrite cycles_when_inc. reflexivity.
Qed.

Lemma INDY_cycles c :
  _cycles (exec (INDY bus_Read) c)
  = if _currentPageCrossPenalty c && page_crossed bus_Read mINDY c
    then u64 (_cycles c + 1) else _cycles c.
Proof.
  unfold page_crossed, page, base_address, call_addressing_mode, result.
  unfold INDY, INDY_pointer, exec, bind, ret, get. cbn [fst snd].
  rewrite cycles_when_inc.
  rewrite word_page by apply u8_range.
  reflexivity.
Qed.

(** Only the three indexed modes touch the counter, by one, when the flag of
    the entry is set and the index crosses a page. *)
Lemma addressing_mode_cycles (m : AddressingModeMethod) c :
  _cycles (exec (call_addressing_mode bus_Read m) c)
  = if _currentPageCrossPenalty c && page_crossed bus_Read m c
    then u64 (_cycles c + 1) else _cycles c.
Proof.
  assert (Hframe : forall m' : M Z,
             preserves _cycles m' ->
             _cycles (exec m' c)
             = if _currentPageCrossPenalty c && false
               then u64 (_cycles c + 1) else _cycles c).
  { intros m' Hm'. rewrite andb_false_r. apply Hm'. }
  destruct m; cbn [call_addressing_mode];
    lazymatch goal with
    | |- context [page_crossed bus_Read mABSX] => apply ABSX_cycles
    | |- context [page_crossed bus_Read mABSY] => apply ABSY_cycles
    | |- context [page_crossed bus_Read mINDY] => apply INDY_cycles
    | |- _ =>
        apply Hframe;
        unfold IMP, IMM, ZPG, ZPGX, ZPGY, ABS, IND, INDX, REL; frame
    end.
Qed.

Lemma page_crossed_indexed (m : AddressingModeMethod) c :
  page_crossed bus_Read m c = true -> m = mABSX \/ m = mABSY \/ m = mINDY.
Proof. destruct m; cbn [page_crossed]; intros H; auto; discriminate H. Qed.

Lemma Tick_dispatch c (i : InstructionMethod) (m : AddressingModeMethod) :
  let e := _opcodeTable (result (Fetch bus_Read) c) in
  instructionMethod e = Some i ->
  addressingModeMethod e = Some m ->
  let c1 := with_currentPageCrossPenalty (pageCrossPenalty e)
                                         (exec (Fetch bus_Read) c) in
  let address := result (call_addressing_mode bus_Read m) c1 in
  let c2 := exec (call_addressing_mode bus_Read m) c1 in
  let c3 := exec (call_instruction bus_Read bus_Write i address) c2 in
  exec (Tick bus_Read bus_Write) c = exec (cycles_add (cycles e)) c3.
Proof.
  intros e Hi Hm. cbv zeta.
  unfold Tick, exec, result, bind in *. fold e. rewrite Hi, Hm.
  reflexivity.
Qed.

(** C1: for an opcode whose entry has both handlers, one [Tick] adds to the
    cycle counter, in 64-bit arithmetic, the [cycles] of the entry, and one
    more exactly when the entry has [pageCrossPenalty] set, its mode is
    ABSX, ABSY or INDY and the effective address lies in another page than
    the base address.  The fetch leaves the counter alone, the extra cycle
    is added while the address is resolved, the instruction handler leaves
    the counter alone, and the base cycles are added last. *)
Theorem Tick_cycles c (i : InstructionMethod) (m : AddressingModeMethod) :
  let e := _opcodeTable (result (Fetch bus_Read) c) in
  instructionMethod e = Some i ->
  addressingModeMethod e = Some m ->
  let c1 := with_currentPageCrossPenalty (pageCrossPenalty e)
                                         (exec (Fetch bus_Read) c) in
  let address := result (call_addressing_mode bus_Read m) c1 in
  let c2 := exec (call_addressing_mode bus_Read m) c1 in
  let c3 := exec (call_instruction bus_Read bus_Write i address) c2 in
  let penalty := pageCrossPenalty e && page_crossed bus_Read m c1 in
  let extra := if penalty then 1 else 0 in
  (penalty = true <->
   pageCrossPenalty e = true /\
   (m = mABSX \/ m = mABSY \/ m = mINDY) /\
   page (result (call_addressing_mode bus_Read m) c1)
   <> page (result (base_address bus_Read m) c1)) /\
  _cycles c1 = _cycles c /\
  _cycles c2 = (if penalty then u64 (_cycles c + 1) else _cycles c) /\
  _cycles c3 = _cycles c2 /\
  exec (Tick bus_Read bus_Write) c = exec (cycles_add (cycles e)) c3 /\
  _cycles (exec (Tick bus_Read bus_Write) c)
  = (_cycles c + cycles e + extra) mod 2 ^ 64 /\
  (is_u64 (_cycles c) -> _cycles c + cycles e + extra < 2 ^ 64 ->
   _cycles (exec (Tick bus_Read bus_Write) c)
   = _cycles c + cycles e + extra).
Proof.
  intros e Hi Hm c1 address c2 c3 penalty extra.
  assert (H1 : _cycles c1 = _cycles c) by reflexivity.
  assert (H2 : _cycles c2
               = if penalty then u64 (_cycles c + 1) else _cycles c).
  { unfold c2. rewrite addressing_mode_cycles. reflexivity. }
  assert (H3 : _cycles c3 = _cycles c2).
  { apply instruction_preserves_cycles. }
  assert (H4 : exec (Tick bus_Read bus_Write) c
               = exec (cycles_add (cycles e)) c3).
  { apply Tick_dispatch; assumption. }
  assert (H5 : _cycles (exec (Tick bus_Read bus_Write) c)
               = (_cycles c + cycles e + extra) mod 2 ^ 64).
  { rewrite H4. change (_cycles (exec (cycles_add (cycles e)) c3))
      with (u64 (_cycles c3 + cycles e)).
    rewrite H3, H2. unfold extra, u64. destruct penalty.
    - rewrite Z.add_mod_idemp_l by lia. f_equal. lia.
    - f_equal. lia. }
  split.
  { unfold penalty. rewrite andb_true_iff. split.
    - intros [Hp Hc]. split; [exact Hp |].
      split; [apply (page_crossed_indexed m c1 Hc) |].
      destruct (page_crossed_indexed m c1 Hc) as [-> | [-> | ->]];
        cbn [page_crossed] in Hc; apply negb_true_iff, Z.eqb_neq in Hc;
        exact Hc.
    - intros [Hp [Hm' Hne]]. split; [exact Hp |].
      destruct Hm' as [-> | [-> | ->]]; cbn [page_crossed];
        apply negb_true_iff, Z.eqb_neq; exact Hne. }
  split; [exact H1 |]. split; [exact H2 |]. split; [exact H3 |].
  split; [exact H4 |]. split; [exact H5 |].
  intros Hu Hlt. rewrite H5. apply Z.mod_small.
  pose proof (opcodeTable_cycles (result (Fetch bus_Read) c)) as Hc.
  fold e in Hc. unfold is_u64 in Hu.
  assert (0 <= extra) by (unfold extra; destruct penalty; lia).
  lia.
Qed.

End Cycles.

(** ** Instances on seeded machines *)

(** C5 as stated fails: with PC = 0x8000 and the offset byte 0x05, [REL]
    returns 0x8005, the offset added to the address of the offset byte, and
    not 0x8006, the offset added to the address after it. *)
Lemma REL_adds_to_operand_address :
  result (REL flat_Read) rel_machine = 0x8005 /\
  result (REL flat_Read) rel_machine
  <> (_pc rel_machine + 1
      + s8 (result (Read flat_Read (_pc rel_machine)) rel_machine))
     mod 2 ^ 16.
Proof. split; [reflexivity | vm_compute; discriminate]. Qed.

(** An instance of C4: the pointer 0x02FF.  The high byte of the target is
    the 0x12 at 0x0200, not the 0x56 at 0x0300, and the bus saw the reads of
    0x8000, 0x8001, 0x02FF and 0x0200. *)
Lemma IND_page_wrap_witness :
  result (ABS rec_Read) ind_wrap_machine = 0x02FF /\
  result (IND rec_Read) ind_wrap_machine = 0x1234 /\
  snd (_bus (exec (IND rec_Read) ind_wrap_machine))
  = [BusRead 0x8000; BusRead 0x8001; BusRead 0x02FF; BusRead 0x0200].
Proof.
  split; [reflexivity |].
  destruct (IND_page_wrap rec_Read ind_wrap_machine)
    as (_ & Hexec & _ & _ & Hwrap).
  split.
  - rewrite (Hwrap eq_refl). reflexivity.
  - rewrite Hexec. reflexivity.
Defined.

(** An instance of C2: scenario 3, 0x7F + 0x01 overflows into 0x80. *)
Lemma ADC_semantics_witness :
  is_u8 (_a adc_overflow_machine) /\
  _a (exec (ADC flat_Read 0x8001) adc_overflow_machine) = 0x80 /\
  (flag Status.Overflow (exec (ADC flat_Read 0x8001) adc_overflow_machine)
   = true <->
   Z.testbit (_a adc_overflow_machine) 7
   = Z.testbit (result (Read flat_Read 0x8001) adc_overflow_machine) 7 /\
   Z.testbit 0x80 7 <> Z.testbit (_a adc_overflow_machine) 7).
Proof.
  assert (Ha : is_u8 (_a adc_overflow_machine)).
  { unfold is_u8. cbn. lia. }
  split; [exact Ha |].
  destruct (ADC_semantics flat_Read 0x8001 adc_overflow_machine Ha)
    as ((HA & _ & _ & HV & _) & _).
  split; [exact HA | exact HV].
Defined.

(** An instance of C3: scenario 4, 0x01 - 0x02 against 0x01 + 0xFD + 1. *)
Lemma SBC_ADC_dual_witness :
  (is_u8 (_a sbc_borrow_machine) /\
   flag Status.Carry sbc_borrow_machine = true /\
   result (Read flat_Read 0x8001) sbc_borrow_machine = 0x02 /\
   result (Read flat_Read 0x8001)
          (with_bus sbc_borrow_complemented sbc_borrow_machine)
   = complement8 0x02) /\
  _a (exec (SBC flat_Read 0x8001) sbc_borrow_machine)
  = _a (exec (ADC flat_Read 0x8001)
             (with_bus sbc_borrow_complemented sbc_borrow_machine)).
Proof.
  assert (Ha : is_u8 (_a sbc_borrow_machine)).
  { unfold is_u8. cbn. lia. }
  split.
  - split; [exact Ha |]. repeat split.
  - apply (SBC_ADC_dual flat_Read 0x8001 0x02 sbc_borrow_machine
                        sbc_borrow_complemented Ha eq_refl eq_refl eq_refl).
Defined.

(** An instance of C1: scenario 5, LDA $20F0,X with X = 0x20 crosses into
    page 0x21 and costs 4 + 1 cycles. *)
Lemma Tick_cycles_witness :
  (instructionMethod
     (_opcodeTable (result (Fetch flat_Read) lda_absx_machine)) = Some iLDA /\
   addressingModeMethod
     (_opcodeTable (result (Fetch flat_Read) lda_absx_machine)) = Some mABSX) /\
  _cycles (flat_Tick lda_absx_machine) = 0 + 4 + 1.
Proof.
  split; [split; reflexivity |].
  destruct (Tick_cycles flat_Read flat_Write lda_absx_machine iLDA mABSX
                        eq_refl eq_refl)
    as (_ & _ & _ & _ & _ & _ & Hexact).
  unfold flat_Tick. rewrite Hexact.
  - reflexivity.
  - unfold is_u64. cbn. lia.
  - vm_compute. reflexivity.
Defined.

(** *** The scenarios of section 8 *)

Example scenario_LDA_immediate_zero :
  registers (flat_Tick lda_zero_machine)
  = (0x00, 0, 0, 0xFD, 0x22, 0x8002, 2).
Proof. reflexivity. Qed.

Example scenario_LDA_immediate_negative :
  registers (flat_Tick lda_negative_machine)
  = (0x80, 0, 0, 0xFD, 0xA0, 0x8002, 2).
Proof. reflexivity. Qed.

Example scenario_ADC_overflow :
  registers (flat_Tick adc_overflow_machine)
  = (0x80, 0, 0, 0xFD, 0xE0, 0x8002, 2).
Proof. reflexivity. Qed.

Example scenario_SBC_borrow :
  registers (flat_Tick sbc_borrow_machine)
  = (0xFF, 0, 0, 0xFD, 0xA0, 0x8002, 2).
Proof. reflexivity. Qed.

Example scenario_LDA_absolute_X_page_cross :
  registers (flat_Tick lda_absx_machine)
  = (0x42, 0x20, 0, 0xFD, 0x20, 0x8003, 5).
Proof. reflexivity. Qed.

Example scenario_STA_absolute_X :
  registers (flat_Tick sta_absx_machine)
  = (0x77, 0x20, 0, 0xFD, 0x20, 0x8003, 5) /\
  _bus (flat_Tick sta_absx_machine) 0x2110 = 0x77.
Proof. split; reflexivity. Qed.

(** * Further properties of the core *)

(** ** Composing flag masks *)

Lemma u8_lor (a b : Z) : u8 (Z.lor a b) = Z.lor (u8 a) (u8 b).
Proof.
  by_bits i Hi. destruct (i <? 8), (Z.testbit a i), (Z.testbit b i);
    reflexivity.
Qed.

Lemma land_covers_lor (p a b : Z) :
  (Z.land p (Z.lor a b) =? Z.lor a b)
  = (Z.land p a =? a) && (Z.land p b =? b).
Proof.
  apply eq_true_iff_eq. rewrite andb_true_iff, !Z.eqb_eq. split.
  - intros H. split; by_bits i Hi;
      pose proof (f_equal (fun z => Z.testbit z i) H) as Hbit;
      cbv beta in Hbit; rewrite Z.land_spec, Z.lor_spec in Hbit;
      destruct (Z.testbit p i), (Z.testbit a i), (Z.testbit b i);
      try reflexivity; discriminate Hbit.
  - intros [Ha Hb]. rewrite Z.land_lor_distr_r, Ha, Hb. reflexivity.
Qed.

Section FlagAlgebra.

Context {Bus : Type}.
Implicit Types c : CPU Bus.

(** X1: a mask that is the union of two masks acts as the two masks one
    after the other: [SetFlags (a | b)] is [SetFlags a] then [SetFlags b],
    [ClearFlags (a | b)] is [ClearFlags a] then [ClearFlags b], and
    [IsFlagSet (a | b)] holds exactly when [IsFlagSet a] and [IsFlagSet b]
    both hold. *)
Theorem flag_masks_compose (a b : Z) c :
  exec (SetFlags (Z.lor a b)) c = exec (SetFlags b) (exec (SetFlags a) c) /\
  exec (ClearFlags (Z.lor a b)) c
  = exec (ClearFlags b) (exec (ClearFlags a) c) /\
  result (IsFlagSet (Z.lor a b)) c
  = result (IsFlagSet a) c && result (IsFlagSet b) c.
Proof.
  split; [| split].
  - change (with_p (u8 (Z.lor (_p c) (u8 (Z.lor a b)))) c
            = with_p (u8 (Z.lor (u8 (Z.lor (_p c) (u8 a))) (u8 b))) c).
    f_equal. by_bits i Hi.
    destruct (i <? 8), (Z.testbit (_p c) i), (Z.testbit a i),
      (Z.testbit b i); reflexivity.
  - change (with_p (u8 (Z.land (_p c) (Z.lnot (u8 (Z.lor a b))))) c
            = with_p (u8 (Z.land (u8 (Z.land (_p c) (Z.lnot (u8 a))))
                                 (Z.lnot (u8 b)))) c).
    f_equal. by_bits i Hi.
    destruct (i <? 8), (Z.testbit (_p c) i), (Z.testbit a i),
      (Z.testbit b i); reflexivity.
  - rewrite !IsFlagSet_spec, u8_lor. apply land_covers_lor.
Qed.

(** [if ( b ) SetFlags( f )], bit by bit. *)
Lemma testbit_after_when_set (f : Z) (b : bool) c (i : Z) :
  0 <= i < 8 ->
  Z.testbit (_p (exec (when b (SetFlags f)) c)) i
  = (b && Z.testbit f i) || Z.testbit (_p c) i.
Proof.
  intros Hi. destruct b; cbn [when andb orb]; [| reflexivity].
  rewrite SetFlags_p. bit_rewrite.
  destruct (Z.ltb_spec i 8); [| lia].
  destruct (Z.testbit f i), (Z.testbit (_p c) i); reflexivity.
Qed.

Lemma SetZeroAndNegativeFlags_exec (value : Z) c :
  exec (SetZeroAndNegativeFlags value) c
  = exec (when (negb (Z.land (u8 value) 0x80 =? 0))
               (SetFlags Status.Negative))
      (exec (when (u8 value =? 0) (SetFlags Status.Zero))
         (exec (ClearFlags (Z.lor Status.Zero Status.Negative)) c)).
Proof. reflexivity. Qed.

Lemma SetZeroAndNegativeFlags_bits (value : Z) c (i : Z) :
  0 <= i < 8 ->
  Z.testbit (_p (exec (SetZeroAndNegativeFlags value) c)) i
  = if i =? 1 then (u8 value =? 0)
    else if i =? 7 then Z.testbit value 7
    else Z.testbit (_p c) i.
Proof.
  intros Hi. rewrite SetZeroAndNegativeFlags_exec.
  rewrite !testbit_after_when_set by lia.
  rewrite (testbit_after_assign (Z.lor Status.Zero Status.Negative)
                                false c i Hi).
  rewrite sign_bit_set, u8_testbit by lia. cbn [andb Z.ltb Z.compare].
  assert (Hcases : i = 0 \/ i = 1 \/ i = 2 \/ i = 3 \/ i = 4 \/ i = 5 \/
                   i = 6 \/ i = 7) by lia.
  destruct Hcases as [-> | [-> | [-> | [-> | [-> | [-> | [-> | ->]]]]]]];
    cbn; rewrite ?andb_false_r, ?andb_true_r, ?orb_false_r;
    reflexivity.
Qed.

(** X2: [SetZeroAndNegativeFlags value] leaves Zero set exactly when the
    byte of [value] is 0 and Negative set exactly when its bit 7 is 1,
    whatever the two flags were before; it never leaves both set, and it
    keeps every other bit of P. *)
Theorem SetZeroAndNegativeFlags_outcome (value : Z) c :
  let c' := exec (SetZeroAndNegativeFlags value) c in
  flag Status.Zero c' = (u8 value =? 0) /\
  flag Status.Negative c' = Z.testbit value 7 /\
  flag Status.Zero c' && flag Status.Negative c' = false /\
  P_bits (all_but ZN) c' = P_bits (all_but ZN) c.
Proof.
  intros c'.
  assert (HZ : flag Status.Zero c' = (u8 value =? 0)).
  { rewrite flag_Zero. unfold c'.
    rewrite SetZeroAndNegativeFlags_bits by lia. reflexivity. }
  assert (HN : flag Status.Negative c' = Z.testbit value 7).
  { rewrite flag_Negative. unfold c'.
    rewrite SetZeroAndNegativeFlags_bits by lia. reflexivity. }
  split; [exact HZ |]. split; [exact HN |]. split.
  - rewrite HZ, HN. destruct (Z.eqb_spec (u8 value) 0) as [H0 | _];
      [| reflexivity].
    cbn [andb]. rewrite <- (Z.bits_0 7), <- H0.
    rewrite u8_testbit by lia. reflexivity.
  - unfold c', P_bits. by_bits i Hi.
    destruct (Z.testbit (all_but ZN) i) eqn:Hm;
      [| rewrite !andb_false_r; reflexivity].
    assert (Hi8 : i < 8).
    { destruct (Z_lt_le_dec i 8) as [Hlt | Hge]; [exact Hlt |].
      rewrite (is_u8_high_bits (all_but ZN) i) in Hm;
        [discriminate | unfold is_u8; cbn; lia | exact Hge]. }
    rewrite SetZeroAndNegativeFlags_bits by lia.
    destruct (Z.eqb_spec i 1) as [-> | _]; [discriminate Hm |].
    destruct (Z.eqb_spec i 7) as [-> | _]; [discriminate Hm |].
    reflexivity.
Qed.

End FlagAlgebra.

(** ** What the addressing modes return *)

Lemma zero_page_index (b x : Z) : u8 (Z.land (b + x) 0xFF) = (b + x) mod 256.
Proof.
  rewrite land_0xFF. apply u8_id. unfold is_u8.
  change (2 ^ 8) with 256. apply Z.mod_pos_bound. lia.
Qed.

Lemma zero_page_address (b x : Z) :
  u16 (Z.land (b + x) 0xFF) = (b + x) mod 256.
Proof.
  rewrite land_0xFF. apply u16_id. unfold is_u16.
  pose proof (Z.mod_pos_bound (b + x) 256). lia.
Qed.

Lemma bytes_lor (hi lo : Z) :
  is_u8 lo -> Z.lor (Z.shiftl hi 8) lo = hi * 256 + lo.
Proof.
  intros Hlo. pose proof (Z.add_lor_land (Z.shiftl hi 8) lo) as Hadd.
  rewrite (bytes_disjoint hi lo Hlo), Z.add_0_r in Hadd. rewrite Hadd.
  rewrite Z.shiftl_mul_pow2 by lia. reflexivity.
Qed.

Lemma page_u16 (z : Z) : is_u16 z -> page z = 256 * (z / 256).
Proof.
  unfold is_u16. intros Hz.
  assert (Hhi : is_u8 (z / 256)).
  { unfold is_u8. split.
    - apply Z.div_pos; lia.
    - apply Z.div_lt_upper_bound; lia. }
  assert (Hlo : is_u8 (z mod 256)).
  { unfold is_u8. change (2 ^ 8) with 256. apply Z.mod_pos_bound. lia. }
  pose proof (word_of_bytes _ _ Hhi Hlo) as Hword.
  pose proof (word_page _ _ Hhi Hlo) as Hpage.
  rewrite Hword in Hpage.
  replace (z / 256 * 256 + z mod 256) with z in Hpage
    by (rewrite (Z.div_mod z 256) at 1; lia).
  unfold page. rewrite Hpage, Z.shiftl_mul_pow2 by lia. lia.
Qed.

(** Adding a byte to an address leaves its page exactly when the sum of the
    low byte and the index carries. *)
Lemma page_cross_carry (base idx : Z) :
  is_u16 base -> is_u8 idx ->
  negb (page (u16 (base + idx)) =? page base)
  = (0xFF <? Z.land base 0xFF + idx).
Proof.
  intros Hb Hi. rewrite (page_u16 base Hb).
  rewrite (page_u16 _ (u16_range (base + idx))), land_0xFF.
  unfold is_u16, is_u8, u16 in *. change (2 ^ 16) with 65536 in *.
  change (2 ^ 8) with 256 in *.
  destruct (Z.ltb_spec 255 (base mod 256 + idx)) as [Hc | Hc];
    [apply negb_true_iff, Z.eqb_neq | apply negb_false_iff, Z.eqb_eq];
    Z.div_mod_to_equations; lia.
Qed.

Section AddressingResults.

Context {Bus : Type}.
Variable bus_Read : Bus -> Z -> Z * Bus.
Implicit Types c : CPU Bus.

(** X3: the three zero-page modes consume the byte at PC and return an
    address in page zero: the byte itself, or the byte plus X (plus Y)
    wrapped to eight bits, so that 0xFF with index 1 gives 0x0000. *)
Theorem zero_page_modes c :
  let byte := result (Fetch bus_Read) c in
  (result (ZPG bus_Read) c = byte /\
   result (ZPGX bus_Read) c = (byte + _x c) mod 256 /\
   result (ZPGY bus_Read) c = (byte + _y c) mod 256) /\
  (is_u8 (result (ZPG bus_Read) c) /\
   is_u8 (result (ZPGX bus_Read) c) /\
   is_u8 (result (ZPGY bus_Read) c)) /\
  (exec (ZPG bus_Read) c = exec (Fetch bus_Read) c /\
   exec (ZPGX bus_Read) c = exec (Fetch bus_Read) c /\
   exec (ZPGY bus_Read) c = exec (Fetch bus_Read) c).
Proof.
  intros byte.
  assert (HZ : result (ZPG bus_Read) c = byte).
  { change (u16 (Z.land byte 0xFF) = byte).
    rewrite <- (Z.add_0_r byte) at 1. rewrite zero_page_address, Z.add_0_r.
    apply Z.mod_small. apply (u8_range _). }
  assert (HX : result (ZPGX bus_Read) c = (byte + _x c) mod 256).
  { change (u16 (Z.land (byte + _x c) 0xFF) = (byte + _x c) mod 256).
    apply zero_page_address. }
  assert (HY : result (ZPGY bus_Read) c = (byte + _y c) mod 256).
  { change (u16 (Z.land (byte + _y c) 0xFF) = (byte + _y c) mod 256).
    apply zero_page_address. }
  split; [split; [exact HZ | split; [exact HX | exact HY]] |].
  split; [| repeat split].
  rewrite HZ, HX, HY. unfold is_u8. change (2 ^ 8) with 256.
  split; [apply (u8_range _) |].
  split; apply Z.mod_pos_bound; lia.
Qed.

(** X4: (Indirect,X) finds its pointer in page zero: with
    zp = (byte + X) mod 256, the low byte of the address is read at zp and
    the high byte at (zp + 1) mod 256, so a pointer at 0xFF takes its high
    byte from 0x00; no other bus access is made. *)
Theorem INDX_pointer_in_zero_page c :
  let byte := result (Fetch bus_Read) c in
  let c1 := exec (Fetch bus_Read) c in
  let zp := (byte + _x c) mod 256 in
  let low := result (Read bus_Read zp) c1 in
  let c2 := exec (Read bus_Read zp) c1 in
  let high := result (Read bus_Read ((zp + 1) mod 256)) c2 in
  result (INDX bus_Read) c = high * 256 + low /\
  exec (INDX bus_Read) c = exec (Read bus_Read ((zp + 1) mod 256)) c2.
Proof.
  cbv zeta. unfold INDX, Fetch, result, exec, bind, ret, get.
  cbn [fst snd]. rewrite !zero_page_index, !land_0xFF.
  split; [| reflexivity].
  apply word_of_bytes; apply u8_range.
Qed.

(** X5: (Indirect),Y reads the zero-page byte zp at PC, takes its pointer
    from zp and (zp + 1) mod 256, and returns the pointer plus Y in 16
    bits; the pointer is the base address of the page-cross test. *)
Theorem INDY_pointer_plus_Y c :
  let zp := result (Fetch bus_Read) c in
  let c1 := exec (Fetch bus_Read) c in
  let low := result (Read bus_Read zp) c1 in
  let c2 := exec (Read bus_Read zp) c1 in
  let high := result (Read bus_Read ((zp + 1) mod 256)) c2 in
  result (INDY_pointer bus_Read) c = high * 256 + low /\
  result (INDY bus_Read) c = (high * 256 + low + _y c) mod 2 ^ 16 /\
  _bus (exec (INDY bus_Read) c)
  = _bus (exec (Read bus_Read ((zp + 1) mod 256)) c2).
Proof.
  cbv zeta. unfold INDY, INDY_pointer, Fetch, result, exec, bind, ret, get.
  cbn [fst snd]. rewrite !land_0xFF.
  split; [apply word_of_bytes; apply u8_range |].
  split.
  - rewrite bytes_lor by apply u8_range. reflexivity.
  - match goal with
    | |- context [when ?b _] => destruct b
    end; reflexivity.
Qed.

(** X6: the absolute modes read the low byte at PC and the high byte at
    PC + 1; ABS returns the little-endian word, ABSX and ABSY that word
    plus X or Y in 16 bits (0xFFFF plus 1 is 0x0000), and none of them
    reads anything else. *)
Theorem absolute_modes c :
  let low := result (Fetch bus_Read) c in
  let c1 := exec (Fetch bus_Read) c in
  let high := result (Fetch bus_Read) c1 in
  let c2 := exec (Fetch bus_Read) c1 in
  result (ABS bus_Read) c = high * 256 + low /\
  result (ABSX bus_Read) c = (high * 256 + low + _x c) mod 2 ^ 16 /\
  result (ABSY bus_Read) c = (high * 256 + low + _y c) mod 2 ^ 16 /\
  exec (ABS bus_Read) c = c2 /\
  _bus (exec (ABSX bus_Read) c) = _bus c2 /\
  _bus (exec (ABSY bus_Read) c) = _bus c2.
Proof.
  cbv zeta.
  assert (Hword : result (ABS bus_Read) c
                  = result (Fetch bus_Read) (exec (Fetch bus_Read) c) * 256
                    + result (Fetch bus_Read) c).
  { unfold ABS, Fetch, result, exec, bind, ret. cbn [fst snd].
    apply word_of_bytes; apply u8_range. }
  split; [exact Hword |].
  rewrite <- Hword.
  split; [reflexivity |]. split; [reflexivity |]. split; [reflexivity |].
  unfold ABSX, ABSY, Fetch, result, exec, bind, ret, get. cbn [fst snd].
  split;
    match goal with
    | |- context [when ?b _] => destruct b
    end; reflexivity.
Qed.

Lemma indexed_result (m : AddressingModeMethod) c :
  indexed m = true ->
  result (call_addressing_mode bus_Read m) c
  = u16 (result (base_address bus_Read m) c + index_of m c).
Proof.
  destruct m; intros Hm; try discriminate Hm; try reflexivity.
  cbn [call_addressing_mode base_address index_of].
  unfold INDY, INDY_pointer, result, bind, ret, get. cbn [fst snd].
  rewrite word_of_bytes, bytes_lor by apply u8_range. reflexivity.
Qed.

(** X7: with the index register a byte, the effective address of ABSX,
    ABSY and INDY lies in another page than the base address exactly when
    the low byte of the base address plus the index exceeds 0xFF. *)
Theorem page_cross_is_low_byte_carry (m : AddressingModeMethod) c :
  indexed m = true ->
  is_u8 (index_of m c) ->
  page_crossed bus_Read m c
  = (0xFF <? Z.land (result (base_address bus_Read m) c) 0xFF
             + index_of m c).
Proof.
  intros Hm Hidx.
  assert (Hcross : page_crossed bus_Read m c
                   = negb (page (result (call_addressing_mode bus_Read m) c)
                           =? page (result (base_address bus_Read m) c))).
  { destruct m; try discriminate Hm; reflexivity. }
  rewrite Hcross, (indexed_result m c Hm).
  apply page_cross_carry; [| exact Hidx].
  destruct m; try discriminate Hm; apply u16_range.
Qed.

End AddressingResults.

(** ** The program counter and the diagnostic stream *)

Section ProgramCounter.

Context {Bus : Type}.
Variable bus_Read : Bus -> Z -> Z * Bus.
Variable bus_Write : Bus -> Z -> Z -> Bus.
Implicit Types c : CPU Bus.

Lemma u16_succ (n k : Z) : u16 (u16 (n + 1) + k) = u16 (n + (1 + k)).
Proof.
  unfold u16. rewrite Z.add_mod_idemp_l by lia. f_equal. lia.
Qed.

Lemma advances_ret {A : Type} (a : A) : advances (Bus := Bus) 0 (ret a).
Proof.
  intros c Hpc. cbn [Z.of_nat]. rewrite Z.add_0_r. symmetry.
  apply u16_id. exact Hpc.
Qed.

Lemma advances_pc_post_inc : advances (Bus := Bus) 1 pc_post_inc.
Proof. intros c Hpc. reflexivity. Qed.

Lemma advances_bind_pc {A : Type} (n : nat) (k : Z -> M A) :
  (forall a, advances n (k a)) ->
  advances (Bus := Bus) (S n) (bind pc_post_inc k).
Proof.
  intros Hk c Hpc. unfold advances, exec in *. unfold bind.
  rewrite (Hk (fst (pc_post_inc c)) (snd (pc_post_inc c)));
    change (_pc (snd (pc_post_inc c))) with (u16 (_pc c + 1));
    [| apply u16_range].
  rewrite u16_succ. f_equal. lia.
Qed.

Lemma advances_bind_frame {A B : Type} (n : nat) (m : M A) (k : A -> M B) :
  preserves _pc m -> (forall a, advances n (k a)) ->
  advances (Bus := Bus) n (bind m k).
Proof.
  intros Hm Hk c Hpc. unfold advances, exec in *. unfold bind.
  assert (Hsame : _pc (snd (m c)) = _pc c) by apply Hm.
  rewrite (Hk (fst (m c)) (snd (m c))); rewrite Hsame;
    [reflexivity | exact Hpc].
Qed.

Ltac advance :=
  repeat first
    [ apply advances_ret
    | apply advances_pc_post_inc
    | apply advances_bind_pc; intro
    | apply advances_bind_frame; [solve [frame] | intro] ].

(** Each addressing mode moves PC past its operand, in 16 bits. *)
Lemma addressing_mode_pc (m : AddressingModeMethod) c :
  is_u16 (_pc c) ->
  _pc (exec (call_addressing_mode bus_Read m) c)
  = u16 (_pc c + operand_bytes m).
Proof.
  assert (H0 : advances 0 (IMP (Bus := Bus))) by (unfold IMP; advance).
  assert (H1 : advances 1 (IMM (Bus := Bus))) by (unfold IMM; advance).
  assert (H2 : advances 1 (ZPG bus_Read)) by (unfold ZPG; advance).
  assert (H3 : advances 1 (ZPGX bus_Read)) by (unfold ZPGX; advance).
  assert (H4 : advances 1 (ZPGY bus_Read)) by (unfold ZPGY; advance).
  assert (H5 : advances 2 (ABS bus_Read)) by (unfold ABS; advance).
  assert (H6 : advances 2 (ABSX bus_Read)) by (unfold ABSX; advance).
  assert (H7 : advances 2 (ABSY bus_Read)) by (unfold ABSY; advance).
  assert (H8 : advances 2 (IND bus_Read)) by (unfold IND; advance).
  assert (H9 : advances 1 (INDX bus_Read)) by (unfold INDX; advance).
  assert (H10 : advances 1 (INDY bus_Read)) by (unfold INDY; advance).
  assert (H11 : advances 1 (REL bus_Read)) by (unfold REL; advance).
  intros Hpc. destruct m; cbn [call_addressing_mode operand_bytes];
    [ apply (H0 c Hpc) | apply (H1 c Hpc) | apply (H2 c Hpc)
    | apply (H3 c Hpc) | apply (H4 c Hpc) | apply (H5 c Hpc)
    | apply (H6 c Hpc) | apply (H7 c Hpc) | apply (H8 c Hpc)
    | apply (H9 c Hpc) | apply (H10 c Hpc) | apply (H11 c Hpc) ].
Qed.

Lemma SetZeroAndNegativeFlags_preserves_pc (value : Z) :
  preserves (Bus := Bus) _pc (SetZeroAndNegativeFlags value).
Proof. unfold SetZeroAndNegativeFlags. frame. Qed.

Lemma instruction_preserves_pc (i : InstructionMethod) (address : Z) :
  preserves _pc (call_instruction bus_Read bus_Write i address).
Proof.
  destruct i; cbn [call_instruction];
    unfold LDA, LDX, LDY, STA, STX, STY, ADC, SBC, INC, DEC, INX, INY,
      DEX, DEY, LoadRegister, StoreRegister;
    frame; apply SetZeroAndNegativeFlags_preserves_pc.
Qed.

Lemma SetZeroAndNegativeFlags_preserves_cerr (value : Z) :
  preserves (Bus := Bus) cerr (SetZeroAndNegativeFlags value).
Proof. unfold SetZeroAndNegativeFlags. frame. Qed.

Lemma instruction_preserves_cerr (i : InstructionMethod) (address : Z) :
  preserves cerr (call_instruction bus_Read bus_Write i address).
Proof.
  destruct i; cbn [call_instruction];
    unfold LDA, LDX, LDY, STA, STX, STY, ADC, SBC, INC, DEC, INX, INY,
      DEX, DEY, LoadRegister, StoreRegister;
    frame; apply SetZeroAndNegativeFlags_preserves_cerr.
Qed.

Lemma addressing_mode_preserves_cerr (m : AddressingModeMethod) :
  preserves cerr (call_addressing_mode bus_Read m).
Proof.
  destruct m; cbn [call_addressing_mode];
    unfold IMP, IMM, ZPG, ZPGX, ZPGY, ABS, ABSX, ABSY, IND, INDX, INDY, REL;
    frame.
Qed.

(** X8: when the entry of the fetched opcode has both handlers, [Tick]
    leaves PC past the whole instruction, the opcode and the operand bytes
    of the addressing mode (none for IMP, two for ABS, ABSX, ABSY and IND,
    one for the others), in 16 bits, and writes nothing to standard
    error. *)
Theorem Tick_program_counter c (i : InstructionMethod)
    (m : AddressingModeMethod) :
  let e := _opcodeTable (result (Fetch bus_Read) c) in
  instructionMethod e = Some i ->
  addressingModeMethod e = Some m ->
  _pc (exec (Tick bus_Read bus_Write) c)
  = (_pc c + 1 + operand_bytes m) mod 2 ^ 16 /\
  cerr (exec (Tick bus_Read bus_Write) c) = cerr c.
Proof.
  intros e Hi Hm.
  rewrite (Tick_dispatch bus_Read bus_Write c i m Hi Hm). fold e.
  change (_pc (exec (cycles_add (cycles e)) ?s)) with (_pc s).
  change (cerr (exec (cycles_add (cycles e)) ?s)) with (cerr s).
  rewrite instruction_preserves_pc, instruction_preserves_cerr.
  rewrite addressing_mode_preserves_cerr.
  split; [| reflexivity].
  rewrite addressing_mode_pc by apply u16_range.
  change (_pc (with_currentPageCrossPenalty (pageCrossPenalty e)
                 (exec (Fetch bus_Read) c)))
    with (u16 (_pc c + 1)).
  rewrite u16_succ. unfold u16. f_equal. lia.
Qed.

End ProgramCounter.

(** An instance of X8: LDA $20F0,X at 0x8000 leaves PC = 0x8003. *)
Lemma Tick_program_counter_witness :
  (instructionMethod
     (_opcodeTable (result (Fetch flat_Read) lda_absx_machine)) = Some iLDA /\
   addressingModeMethod
     (_opcodeTable (result (Fetch flat_Read) lda_absx_machine)) = Some mABSX) /\
  _pc (flat_Tick lda_absx_machine) = 0x8003.
Proof.
  split; [split; reflexivity |].
  destruct (Tick_program_counter flat_Read flat_Write lda_absx_machine
                                 iLDA mABSX eq_refl eq_refl) as [Hpc _].
  unfold flat_Tick. rewrite Hpc. reflexivity.
Defined.

(** ** Registers stay within their widths *)

Lemma u64_range (n : Z) : is_u64 (u64 n).
Proof. unfold is_u64, u64. apply Z.mod_pos_bound. lia. Qed.

Section Ranges.

Context {Bus : Type}.
Variable bus_Read : Bus -> Z -> Z * Bus.
Variable bus_Write : Bus -> Z -> Z -> Bus.
Implicit Types c : CPU Bus.

Lemma keeps_bind {A B : Type} (P : CPU Bus -> Prop) (m : M A)
    (k : A -> M B) :
  keeps P m -> (forall a, keeps P (k a)) -> keeps P (bind m k).
Proof.
  intros Hm Hk c Hc. unfold keeps, exec in *. unfold bind.
  apply Hk, Hm, Hc.
Qed.

Lemma keeps_when (P : CPU Bus -> Prop) (b : bool) (m : M unit) :
  keeps P m -> keeps P (when b m).
Proof. intros Hm. destruct b; [exact Hm | intros c Hc; exact Hc]. Qed.

Lemma keeps_if {A : Type} (P : CPU Bus -> Prop) (b : bool) (m1 m2 : M A) :
  keeps P m1 -> keeps P m2 -> keeps P (if b then m1 else m2).
Proof. intros H1 H2. destruct b; assumption. Qed.

(** Closes [in_range] of a state built by the [with_] updates from a state
    in range: every field is an old one or a fresh conversion. *)
Ltac in_range_fields H :=
  unfold in_range in *;
  cbn [_a _x _y _s _p _pc _cycles with_a with_x with_y with_s with_p
       with_pc with_cycles with_bus with_cerr with_currentPageCrossPenalty];
  destruct H as (Ha & Hx & Hy & Hs & Hp & Hpc & Hcy);
  repeat split;
  first [ assumption | apply u8_range | apply u16_range | apply u64_range
        | match goal with
          | Hin : is_u8 _ |- _ => apply Hin
          | Hin : is_u16 _ |- _ => apply Hin
          | Hin : is_u64 _ |- _ => apply Hin
          end ].

(** A primitive keeps the ranges: its state is computed and checked field
    by field. *)
Ltac keeps_primitive :=
  let c := fresh "c" in
  let H := fresh "H" in
  intros c H;
  unfold exec, ret, get, modify, Read, Write, pc_post_inc, cycles_inc,
    cycles_add, SetFlags, ClearFlags, IsFlagSet, print_cerr, bind;
  cbn [fst snd];
  in_range_fields H.

Ltac keeps_walk :=
  repeat lazymatch goal with
         | |- keeps _ (bind _ _) => apply keeps_bind; [ | intro ]
         | |- keeps _ (when _ _) => apply keeps_when
         | |- keeps _ (if _ then _ else _) => apply keeps_if
         | |- keeps _ _ => solve [keeps_primitive]
         end.

Lemma SetZeroAndNegativeFlags_keeps_range (value : Z) :
  keeps (Bus := Bus) in_range (SetZeroAndNegativeFlags value).
Proof. unfold SetZeroAndNegativeFlags. keeps_walk. Qed.

(** A load stores the byte that [Read] returned. *)
Lemma LoadRegister_keeps_range (address : Z) (reg : Z -> CPU Bus -> CPU Bus) :
  (forall v c, is_u8 v -> in_range c -> in_range (reg v c)) ->
  keeps in_range (LoadRegister bus_Read address reg).
Proof.
  intros Hreg c Hc.
  change (in_range
            (exec (SetZeroAndNegativeFlags (result (Read bus_Read address) c))
                  (reg (result (Read bus_Read address) c)
                       (exec (Read bus_Read address) c)))).
  apply SetZeroAndNegativeFlags_keeps_range.
  apply Hreg; [apply u8_range |].
  revert c Hc. change (keeps in_range (Read bus_Read address)).
  keeps_walk.
Qed.

Lemma instruction_keeps_range (i : InstructionMethod) (address : Z) :
  keeps in_range (call_instruction bus_Read bus_Write i address).
Proof.
  destruct i; cbn [call_instruction];
    unfold LDA, LDX, LDY, STA, STX, STY, ADC, SBC, INC, DEC, INX, INY,
      DEX, DEY, StoreRegister;
    lazymatch goal with
    | |- keeps _ (LoadRegister _ _ _) =>
        apply LoadRegister_keeps_range; intros v c Hv H; in_range_fields H
    | |- _ => keeps_walk; apply SetZeroAndNegativeFlags_keeps_range
    end.
Qed.

Lemma addressing_mode_keeps_range (m : AddressingModeMethod) :
  keeps in_range (call_addressing_mode bus_Read m).
Proof.
  destruct m; cbn [call_addressing_mode];
    unfold IMP, IMM, ZPG, ZPGX, ZPGY, ABS, ABSX, ABSY, IND, INDX, INDY, REL;
    keeps_walk.
Qed.

(** X9: if every register is within the width of its type (A, X, Y, S, P
    in 8 bits, PC in 16, the cycle counter in 64) before [Tick], it is so
    after [Tick], whatever the opcode and whatever the bus returns; the
    same holds for every addressing mode and instruction handler alone. *)
Theorem Tick_keeps_registers_in_range :
  keeps in_range (Tick bus_Read bus_Write) /\
  (forall m, keeps in_range (call_addressing_mode bus_Read m)) /\
  (forall i address,
      keeps in_range (call_instruction bus_Read bus_Write i address)).
Proof.
  split;
    [| split;
       [exact addressing_mode_keeps_range | exact instruction_keeps_range]].
  unfold Tick, Fetch. apply keeps_bind; [keeps_walk |].
  intros opcode. cbv zeta.
  destruct (instructionMethod (_opcodeTable opcode)) as [i|];
    destruct (addressingModeMethod (_opcodeTable opcode)) as [m|];
    keeps_walk.
  - apply addressing_mode_keeps_range.
  - apply instruction_keeps_range.
Qed.


End Ranges.

(** An instance of X9: the machine of scenario 5 before and after a tick. *)
Lemma Tick_keeps_registers_in_range_witness :
  in_range lda_absx_machine /\ in_range (flat_Tick lda_absx_machine).
Proof.
  assert (H : in_range lda_absx_machine).
  { unfold in_range, is_u8, is_u16, is_u64. cbn. lia. }
  split; [exact H |].
  apply (proj1 (Tick_keeps_registers_in_range flat_Read flat_Write)).
  exact H.
Defined.

(** ** Subtraction *)

Section Subtraction.

Context {Bus : Type}.
Variable bus_Read : Bus -> Z -> Z * Bus.
Implicit Types c : CPU Bus.

(** The 16-bit difference of [SBC] against the 16-bit sum of [ADC] on the
    complemented operand: they differ by 256, or by 65536 + 256 under a
    borrow. *)
Lemma diff_and_sum (a v b : Z) :
  is_u8 a -> is_u8 v -> 0 <= b <= 1 ->
  let diff := u16 (a - v - b) in
  let sum := u16 (a + complement8 v + (1 - b)) in
  sum = a - v - b + 256 /\
  diff = (if v + b <=? a then a - v - b else a - v - b + 65536) /\
  Z.land diff 0xFF = Z.land sum 0xFF /\
  Z.testbit diff 7 = Z.testbit sum 7 /\
  (diff <? 0x100) = (sum >? 0xFF).
Proof.
  intros Ha Hv Hb diff sum. unfold is_u8 in Ha, Hv.
  assert (Hsum : sum = a - v - b + 256).
  { unfold sum. rewrite (complement8_sub v Hv).
    rewrite u16_id; [lia | unfold is_u16; lia]. }
  assert (Hdiff : diff
                  = if v + b <=? a then a - v - b else a - v - b + 65536).
  { unfold diff, u16. change (2 ^ 16) with 65536.
    destruct (Z.leb_spec (v + b) a).
    - rewrite Z.mod_small; lia.
    - symmetry. apply (Z.mod_unique _ _ (-1)); lia. }
  assert (Hlow : Z.land diff 0xFF = Z.land sum 0xFF).
  { rewrite !land_0xFF. unfold diff. rewrite u16_mod_256, Hsum.
    replace (a - v - b + 256) with (a - v - b + 1 * 256) by lia.
    rewrite Z.mod_add by lia. reflexivity. }
  assert (Hbit : Z.testbit diff 7 = Z.testbit sum 7).
  { rewrite <- (sign_bit_set diff), <- (sign_bit_set sum).
    rewrite <- (Z.land_ones_low 0x80 8) by (cbn; lia).
    change (Z.ones 8) with 0xFF.
    rewrite (Z.land_comm 0x80 0xFF), !Z.land_assoc, Hlow. reflexivity. }
  split; [exact Hsum |]. split; [exact Hdiff |]. split; [exact Hlow |].
  split; [exact Hbit |].
  rewrite Hdiff, Hsum, Z.gtb_ltb.
  destruct (Z.leb_spec (v + b) a);
    destruct (Z.ltb_spec (a - v - b) 256);
    destruct (Z.ltb_spec (a - v - b + 65536) 256);
    destruct (Z.ltb_spec 255 (a - v - b + 256)); try reflexivity; lia.
Qed.

(** X11: with A a byte, v the byte read and borrow = 1 when Carry is clear,
    0 when it is set, [SBC] leaves A = (A - v - borrow) mod 256, Carry set
    exactly when no borrow occurred (v + borrow <= A), Zero exactly when
    the result is 0, Negative as bit 7 of the result, and Overflow exactly
    when bit 7 of A differs from bit 7 of v and from bit 7 of the
    result. *)
Theorem SBC_semantics (address : Z) c :
  is_u8 (_a c) ->
  let v := result (Read bus_Read address) c in
  let borrow := if flag Status.Carry c then 0 else 1 in
  let r := (_a c - v - borrow) mod 256 in
  let c' := exec (SBC bus_Read address) c in
  _a c' = r /\
  flag Status.Carry c' = (v + borrow <=? _a c) /\
  flag Status.Zero c' = (r =? 0) /\
  flag Status.Negative c' = Z.testbit r 7 /\
  flag Status.Overflow c' =
    negb (Bool.eqb (Z.testbit (_a c) 7) (Z.testbit v 7)) &&
    negb (Bool.eqb (Z.testbit (_a c) 7) (Z.testbit r 7)).
Proof.
  intros Ha v borrow r c'.
  destruct (SBC_bits bus_Read address c) as (HA & HC & HZ & HV & HN).
  fold v borrow c' in HA, HC, HZ, HV, HN.
  assert (Hv : is_u8 v) by apply Read_result_u8.
  assert (Hb : 0 <= borrow <= 1).
  { unfold borrow. destruct (flag Status.Carry c); lia. }
  destruct (diff_and_sum (_a c) v borrow Ha Hv Hb)
    as (_ & Hdiff & _ & _ & _).
  assert (Hlow : Z.land (u16 (_a c - v - borrow)) 0xFF = r).
  { rewrite land_0xFF. apply u16_mod_256. }
  assert (Hr : is_u8 r).
  { unfold r, is_u8. apply Z.mod_pos_bound. lia. }
  assert (Hbit : Z.testbit (u16 (_a c - v - borrow)) 7 = Z.testbit r 7).
  { apply u16_testbit_7. }
  rewrite HA, HC, HZ, HV, HN.
  rewrite !sign_bit_eqb, sign_bit_set, Hlow, Hbit, (u8_id r Hr).
  split; [reflexivity |].
  split.
  - rewrite Hdiff. unfold is_u8 in Ha, Hv.
    destruct (Z.leb_spec (v + borrow) (_a c));
      [apply Z.ltb_lt | apply Z.ltb_ge]; lia.
  - repeat split.
Qed.

Lemma assign_p (f : Z) (b : bool) c :
  _p (exec (if b then SetFlags f else ClearFlags f) c)
  = if b then u8 (Z.lor (_p c) (u8 f))
    else u8 (Z.land (_p c) (Z.lnot (u8 f))).
Proof. destruct b; reflexivity. Qed.

(** X12: with A a byte and whatever the Carry flag, [SBC] on an address
    that holds v leaves the same accumulator and the same status register,
    bit for bit, as [ADC] from the same registers on an address that holds
    the complement of v. *)
Theorem SBC_is_ADC_of_complement (address : Z) c (bus' : Bus) :
  is_u8 (_a c) ->
  result (Read bus_Read address) (with_bus bus' c)
  = complement8 (result (Read bus_Read address) c) ->
  _a (exec (SBC bus_Read address) c)
  = _a (exec (ADC bus_Read address) (with_bus bus' c)) /\
  _p (exec (SBC bus_Read address) c)
  = _p (exec (ADC bus_Read address) (with_bus bus' c)).
Proof.
  intros Ha Hcv.
  set (v := result (Read bus_Read address) c) in *.
  set (b := if flag Status.Carry c then 0 else 1).
  assert (Hv : is_u8 v) by apply Read_result_u8.
  assert (Hb : 0 <= b <= 1).
  { unfold b. destruct (flag Status.Carry c); lia. }
  assert (Hcarry : (if flag Status.Carry c then 1 else 0) = 1 - b).
  { unfold b. destruct (flag Status.Carry c); reflexivity. }
  destruct (diff_and_sum (_a c) v b Ha Hv Hb)
    as (_ & _ & Hlow & Hbit & HC).
  rewrite (SBC_exec bus_Read address c).
  rewrite (ADC_exec bus_Read address (with_bus bus' c)).
  cbv zeta. rewrite Hcv. fold v b.
  change (flag Status.Carry (with_bus bus' c)) with (flag Status.Carry c).
  change (_a (with_bus bus' c)) with (_a c).
  rewrite Hcarry.
  set (diff := u16 (_a c - v - b)) in *.
  set (sum := u16 (_a c + complement8 v + (1 - b))) in *.
  cbn [_a _p with_a].
  rewrite !assign_p.
  change (_p (exec (Read bus_Read address) c)) with (_p c).
  change (_p (exec (Read bus_Read address) (with_bus bus' c))) with (_p c).
  rewrite !sign_bit_eqb, !sign_bit_set, complement8_sign, Hbit, Hlow, HC.
  split; [reflexivity |].
  destruct (Z.testbit (_a c) 7), (Z.testbit v 7), (Z.testbit sum 7);
    reflexivity.
Qed.

End Subtraction.

(** An instance of X11: scenario 4, 0x01 - 0x02 with Carry set. *)
Lemma SBC_semantics_witness :
  is_u8 (_a sbc_borrow_machine) /\
  _a (exec (SBC flat_Read 0x8001) sbc_borrow_machine) = 0xFF /\
  flag Status.Carry (exec (SBC flat_Read 0x8001) sbc_borrow_machine) = false.
Proof.
  assert (Ha : is_u8 (_a sbc_borrow_machine)).
  { unfold is_u8. cbn. lia. }
  split; [exact Ha |].
  destruct (SBC_semantics flat_Read 0x8001 sbc_borrow_machine Ha)
    as (HA & HC & _).
  split; [rewrite HA | rewrite HC]; reflexivity.
Defined.

(** An instance of X12: A = 0x50, Carry clear, operand 0xF0 against its
    complement 0x0F. *)
Lemma SBC_is_ADC_of_complement_witness :
  (is_u8 (_a (with_a 0x50 (flat_machine 0x8000 [0xE9; 0xF0]))) /\
   result (Read flat_Read 0x8001)
          (with_bus (flat_load (fun _ => 0) 0x8000 [0x69; 0x0F])
                    (with_a 0x50 (flat_machine 0x8000 [0xE9; 0xF0])))
   = complement8
       (result (Read flat_Read 0x8001)
               (with_a 0x50 (flat_machine 0x8000 [0xE9; 0xF0])))) /\
  _p (exec (SBC flat_Read 0x8001)
           (with_a 0x50 (flat_machine 0x8000 [0xE9; 0xF0])))
  = _p (exec (ADC flat_Read 0x8001)
             (with_bus (flat_load (fun _ => 0) 0x8000 [0x69; 0x0F])
                       (with_a 0x50 (flat_machine 0x8000 [0xE9; 0xF0])))).
Proof.
  assert (Ha : is_u8 (_a (with_a 0x50 (flat_machine 0x8000 [0xE9; 0xF0])))).
  { unfold is_u8. cbn. lia. }
  split; [split; [exact Ha | reflexivity] |].
  apply (SBC_is_ADC_of_complement flat_Read 0x8001
           (with_a 0x50 (flat_machine 0x8000 [0xE9; 0xF0]))
           (flat_load (fun _ => 0) 0x8000 [0x69; 0x0F]) Ha eq_refl).
Defined.

(** ** Loads, stores and increments *)

Lemma u8_succ_pred (x : Z) : u8 (u8 (x + 1) - 1) = u8 x.
Proof.
  unfold u8. rewrite Zminus_mod_idemp_l. f_equal. lia.
Qed.

Lemma u8_pred_succ (x : Z) : u8 (u8 (x - 1) + 1) = u8 x.
Proof.
  unfold u8. rewrite Z.add_mod_idemp_l by lia. f_equal. lia.
Qed.

Section LoadsAndStores.

Context {Bus : Type}.
Variable bus_Read : Bus -> Z -> Z * Bus.
Variable bus_Write : Bus -> Z -> Z -> Bus.
Implicit Types c : CPU Bus.

Lemma SetZeroAndNegativeFlags_flags (value : Z) c :
  flag Status.Zero (exec (SetZeroAndNegativeFlags value) c)
  = (u8 value =? 0) /\
  flag Status.Negative (exec (SetZeroAndNegativeFlags value) c)
  = Z.testbit value 7.
Proof.
  rewrite flag_Zero, flag_Negative.
  rewrite !SetZeroAndNegativeFlags_bits by lia. split; reflexivity.
Qed.

Lemma SetZeroAndNegativeFlags_preserves_axy (value : Z) :
  preserves (Bus := Bus) _a (SetZeroAndNegativeFlags value) /\
  preserves (Bus := Bus) _x (SetZeroAndNegativeFlags value) /\
  preserves (Bus := Bus) _y (SetZeroAndNegativeFlags value).
Proof. repeat split; unfold SetZeroAndNegativeFlags; frame. Qed.


Section ReadAfterWrite.

(** The bus returns at an address the byte last written there. *)
Hypothesis read_after_write :
  forall b address data, fst (bus_Read (bus_Write b address data) address)
                         = data.







End ReadAfterWrite.

(** What the register increments and decrements leave in the register and
    in the two flags. *)
Lemma register_step_outcome (address : Z) c :
  (let c' := exec (INX address) c in
   _x c' = u8 (_x c + 1) /\ _y c' = _y c /\
   flag Status.Zero c' = (u8 (_x c + 1) =? 0) /\
   flag Status.Negative c' = Z.testbit (u8 (_x c + 1)) 7) /\
  (let c' := exec (DEX address) c in
   _x c' = u8 (_x c - 1) /\ _y c' = _y c /\
   flag Status.Zero c' = (u8 (_x c - 1) =? 0) /\
   flag Status.Negative c' = Z.testbit (u8 (_x c - 1)) 7) /\
  (let c' := exec (INY address) c in
   _y c' = u8 (_y c + 1) /\ _x c' = _x c /\
   flag Status.Zero c' = (u8 (_y c + 1) =? 0) /\
   flag Status.Negative c' = Z.testbit (u8 (_y c + 1)) 7) /\
  (let c' := exec (DEY address) c in
   _y c' = u8 (_y c - 1) /\ _x c' = _x c /\
   flag Status.Zero c' = (u8 (_y c - 1) =? 0) /\
   flag Status.Negative c' = Z.testbit (u8 (_y c - 1)) 7).
Proof.
  assert (Hstep : forall (r : Z) (s : CPU Bus),
             _x (exec (SetZeroAndNegativeFlags r) s) = _x s /\
             _y (exec (SetZeroAndNegativeFlags r) s) = _y s /\
             flag Status.Zero (exec (SetZeroAndNegativeFlags r) s)
             = (u8 r =? 0) /\
             flag Status.Negative (exec (SetZeroAndNegativeFlags r) s)
             = Z.testbit r 7).
  { intros r s.
    destruct (SetZeroAndNegativeFlags_preserves_axy r) as (_ & Px & Py).
    destruct (SetZeroAndNegativeFlags_flags r s) as [HZ HN].
    rewrite Px, Py, HZ, HN. repeat split. }
  split; [| split; [| split]]; cbv zeta.
  - change (exec (INX address) c)
      with (exec (SetZeroAndNegativeFlags (u8 (_x c + 1)))
                 (with_x (u8 (_x c + 1)) c)).
    destruct (Hstep (u8 (_x c + 1)) (with_x (u8 (_x c + 1)) c))
      as (Hx & Hy & HZ & HN).
    rewrite Hx, Hy, HZ, HN, u8_u8. repeat split.
  - change (exec (DEX address) c)
      with (exec (SetZeroAndNegativeFlags (u8 (_x c - 1)))
                 (with_x (u8 (_x c - 1)) c)).
    destruct (Hstep (u8 (_x c - 1)) (with_x (u8 (_x c - 1)) c))
      as (Hx & Hy & HZ & HN).
    rewrite Hx, Hy, HZ, HN, u8_u8. repeat split.
  - change (exec (INY address) c)
      with (exec (SetZeroAndNegativeFlags (u8 (_y c + 1)))
                 (with_y (u8 (_y c + 1)) c)).
    destruct (Hstep (u8 (_y c + 1)) (with_y (u8 (_y c + 1)) c))
      as (Hx & Hy & HZ & HN).
    rewrite Hx, Hy, HZ, HN, u8_u8. repeat split.
  - change (exec (DEY address) c)
      with (exec (SetZeroAndNegativeFlags (u8 (_y c - 1)))
                 (with_y (u8 (_y c - 1)) c)).
    destruct (Hstep (u8 (_y c - 1)) (with_y (u8 (_y c - 1)) c))
      as (Hx & Hy & HZ & HN).
    rewrite Hx, Hy, HZ, HN, u8_u8. repeat split.
Qed.

(** X15: INX and INY add one to their register modulo 256 (0xFF becomes
    0x00 with Zero set), DEX and DEY subtract one (0x00 becomes 0xFF with
    Negative set); with the register a byte, INX then DEX, DEX then INX,
    INY then DEY and DEY then INY restore it and leave Zero and Negative as
    they follow from the restored value. *)
Theorem register_step_round_trip (a1 a2 : Z) c :
  (_x (exec (INX a1) c) = (_x c + 1) mod 256 /\
   _x (exec (DEX a1) c) = (_x c - 1) mod 256 /\
   _y (exec (INY a1) c) = (_y c + 1) mod 256 /\
   _y (exec (DEY a1) c) = (_y c - 1) mod 256) /\
  (is_u8 (_x c) ->
   (let c' := exec (DEX a2) (exec (INX a1) c) in
    _x c' = _x c /\ flag Status.Zero c' = (_x c =? 0) /\
    flag Status.Negative c' = Z.testbit (_x c) 7) /\
   (let c' := exec (INX a2) (exec (DEX a1) c) in
    _x c' = _x c /\ flag Status.Zero c' = (_x c =? 0) /\
    flag Status.Negative c' = Z.testbit (_x c) 7)) /\
  (is_u8 (_y c) ->
   (let c' := exec (DEY a2) (exec (INY a1) c) in
    _y c' = _y c /\ flag Status.Zero c' = (_y c =? 0) /\
    flag Status.Negative c' = Z.testbit (_y c) 7) /\
   (let c' := exec (INY a2) (exec (DEY a1) c) in
    _y c' = _y c /\ flag Status.Zero c' = (_y c =? 0) /\
    flag Status.Negative c' = Z.testbit (_y c) 7)).
Proof.
  destruct (register_step_outcome a1 c)
    as ((Hix & _) & (Hdx & _) & (Hiy & _) & (Hdy & _)).
  cbv zeta in Hix, Hdx, Hiy, Hdy.
  split; [repeat split; assumption |].
  split; intros Hreg; split; cbv zeta.
  - destruct (register_step_outcome a2 (exec (INX a1) c))
      as (_ & (Hx & _ & HZ & HN) & _).
    cbv zeta in Hx, HZ, HN. rewrite Hx, HZ, HN, Hix.
    rewrite u8_succ_pred, (u8_id _ Hreg). repeat split.
  - destruct (register_step_outcome a2 (exec (DEX a1) c))
      as ((Hx & _ & HZ & HN) & _).
    cbv zeta in Hx, HZ, HN. rewrite Hx, HZ, HN, Hdx.
    rewrite u8_pred_succ, (u8_id _ Hreg). repeat split.
  - destruct (register_step_outcome a2 (exec (INY a1) c))
      as (_ & _ & _ & (Hy & _ & HZ & HN)).
    cbv zeta in Hy, HZ, HN. rewrite Hy, HZ, HN, Hiy.
    rewrite u8_succ_pred, (u8_id _ Hreg). repeat split.
  - destruct (register_step_outcome a2 (exec (DEY a1) c))
      as (_ & _ & (Hy & _ & HZ & HN) & _).
    cbv zeta in Hy, HZ, HN. rewrite Hy, HZ, HN, Hdy.
    rewrite u8_pred_succ, (u8_id _ Hreg). repeat split.
Qed.

End LoadsAndStores.

(** ** Timing over the whole table *)

Lemma assignments_timing_checked :
  forallb
    (fun ke =>
       match instructionMethod (snd ke), addressingModeMethod (snd ke) with
       | Some i, Some m =>
           implb (pageCrossPenalty (snd ke) && indexed m)
                 (negb (writes_memory i) && (cycles (snd ke) <=? 6)) &&
           (2 <=? cycles (snd ke)) && (cycles (snd ke) <=? 7)
       | _, _ => true
       end)
    assignments = true.
Proof. vm_compute. reflexivity. Qed.

(** In every entry of the table, the page-cross flag is cleared for the
    handlers that write memory through an indexed mode, and the cycles with
    the possible extra one stay between 2 and 7. *)
Lemma entry_timing (opcode : Z) (i : InstructionMethod)
    (m : AddressingModeMethod) :
  let e := _opcodeTable opcode in
  instructionMethod e = Some i ->
  addressingModeMethod e = Some m ->
  (writes_memory i = true -> pageCrossPenalty e && indexed m = false) /\
  2 <= cycles e /\
  cycles e + (if pageCrossPenalty e && indexed m then 1 else 0) <= 7.
Proof.
  intros e Hi Hm.
  destruct (opcodeTable_lookup opcode) as [Hnull | Hin].
  - fold e in Hnull. rewrite Hnull in Hi. discriminate Hi.
  - pose proof (proj1 (forallb_forall _ _) assignments_timing_checked _ Hin)
      as H.
    cbn [snd] in H. fold e in H. rewrite Hi, Hm in H.
    apply andb_prop in H. destruct H as [H H7].
    apply andb_prop in H. destruct H as [H H2].
    apply Z.leb_le in H7. apply Z.leb_le in H2.
    destruct (pageCrossPenalty e && indexed m).
    + cbn [implb] in H. apply andb_prop in H. destruct H as [Hw H6].
      apply Z.leb_le in H6. apply negb_true_iff in Hw.
      split; [intros Hyes; congruence | lia].
    + split; [reflexivity | lia].
Qed.

Section Timing.

Context {Bus : Type}.
Variable bus_Read : Bus -> Z -> Z * Bus.
Variable bus_Write : Bus -> Z -> Z -> Bus.
Implicit Types c : CPU Bus.

Lemma page_crossed_only_indexed (m : AddressingModeMethod) c :
  page_crossed bus_Read m c = indexed m && page_crossed bus_Read m c.
Proof. destruct m; reflexivity. Qed.

(** The counter after a dispatched [Tick], from the shared steps. *)
Lemma Tick_cycles_steps c (i : InstructionMethod)
    (m : AddressingModeMethod) :
  let e := _opcodeTable (result (Fetch bus_Read) c) in
  instructionMethod e = Some i ->
  addressingModeMethod e = Some m ->
  let c1 := with_currentPageCrossPenalty (pageCrossPenalty e)
                                         (exec (Fetch bus_Read) c) in
  _cycles (exec (Tick bus_Read bus_Write) c)
  = u64 ((if pageCrossPenalty e && page_crossed bus_Read m c1
          then u64 (_cycles c + 1) else _cycles c) + cycles e).
Proof.
  intros e Hi Hm c1.
  rewrite (Tick_dispatch bus_Read bus_Write c i m Hi Hm). fold e c1.
  change (_cycles (exec (cycles_add (cycles e)) ?s))
    with (u64 (_cycles s + cycles e)).
  rewrite instruction_preserves_cycles, addressing_mode_cycles.
  reflexivity.
Qed.

(** X16: the stores and the memory increments and decrements have a fixed
    cost: for every opcode of the table whose handler writes memory (STA,
    STX, STY, INC, DEC), [Tick] adds exactly the [cycles] of the entry, in
    64-bit arithmetic, whether or not the index crosses a page. *)
Theorem write_instructions_fixed_timing c (i : InstructionMethod)
    (m : AddressingModeMethod) :
  let e := _opcodeTable (result (Fetch bus_Read) c) in
  instructionMethod e = Some i ->
  addressingModeMethod e = Some m ->
  writes_memory i = true ->
  _cycles (exec (Tick bus_Read bus_Write) c)
  = (_cycles c + cycles e) mod 2 ^ 64.
Proof.
  intros e Hi Hm Hw.
  rewrite (Tick_cycles_steps c i m Hi Hm). fold e.
  destruct (entry_timing _ i m Hi Hm) as (Hfixed & _ & _). fold e in Hfixed.
  rewrite page_crossed_only_indexed, andb_assoc, (Hfixed Hw).
  reflexivity.
Qed.

(** X17: for every opcode of the table, one [Tick] costs at least 2 and at
    most 7 cycles (when the 64-bit counter does not wrap). *)
Theorem Tick_cycles_bounds c (i : InstructionMethod)
    (m : AddressingModeMethod) :
  let e := _opcodeTable (result (Fetch bus_Read) c) in
  instructionMethod e = Some i ->
  addressingModeMethod e = Some m ->
  is_u64 (_cycles c) ->
  _cycles c + 7 < 2 ^ 64 ->
  _cycles c + 2 <= _cycles (exec (Tick bus_Read bus_Write) c)
  <= _cycles c + 7.
Proof.
  intros e Hi Hm Hu Hlt.
  rewrite (Tick_cycles_steps c i m Hi Hm). fold e.
  destruct (entry_timing _ i m Hi Hm) as (_ & H2 & H7). fold e in H2, H7.
  rewrite page_crossed_only_indexed, andb_assoc.
  unfold is_u64 in Hu. unfold u64.
  destruct (pageCrossPenalty e && indexed m); cbn [andb].
  - match goal with
    | |- context [if ?b then _ else _] => destruct b
    end.
    + rewrite (Z.mod_small (_cycles c + 1)) by lia.
      rewrite Z.mod_small by lia. lia.
    + rewrite Z.mod_small by lia. lia.
  - rewrite Z.mod_small by lia. lia.
Qed.

End Timing.

(** An instance of X16: scenario 6, STA $20F0,X with X = 0x20 crosses a
    page and still costs 5 cycles. *)
Lemma write_instructions_fixed_timing_witness :
  (instructionMethod
     (_opcodeTable (result (Fetch flat_Read) sta_absx_machine)) = Some iSTA /\
   addressingModeMethod
     (_opcodeTable (result (Fetch flat_Read) sta_absx_machine)) = Some mABSX /\
   writes_memory iSTA = true) /\
  page_crossed flat_Read mABSX (exec (Fetch flat_Read) sta_absx_machine)
  = true /\
  _cycles (flat_Tick sta_absx_machine) = 5.
Proof.
  split; [repeat split |]. split; [reflexivity |].
  unfold flat_Tick.
  rewrite (write_instructions_fixed_timing flat_Read flat_Write
             sta_absx_machine iSTA mABSX eq_refl eq_refl eq_refl).
  reflexivity.
Defined.

(** An instance of X17: scenario 5 costs 5 cycles. *)
Lemma Tick_cycles_bounds_witness :
  (instructionMethod
     (_opcodeTable (result (Fetch flat_Read) lda_absx_machine)) = Some iLDA /\
   addressingModeMethod
     (_opcodeTable (result (Fetch flat_Read) lda_absx_machine)) = Some mABSX /\
   is_u64 (_cycles lda_absx_machine) /\
   _cycles lda_absx_machine + 7 < 2 ^ 64) /\
  _cycles lda_absx_machine + 2 <= _cycles (flat_Tick lda_absx_machine)
  <= _cycles lda_absx_machine + 7.
Proof.
  assert (Hu : is_u64 (_cycles lda_absx_machine)).
  { unfold is_u64. cbn. lia. }
  assert (Hlt : _cycles lda_absx_machine + 7 < 2 ^ 64).
  { vm_compute. reflexivity. }
  split; [repeat split; first [reflexivity | apply Hu | exact Hlt] |].
  apply (Tick_cycles_bounds flat_Read flat_Write lda_absx_machine iLDA mABSX
                            eq_refl eq_refl Hu Hlt).
Defined.

(** ** What reaches the bus *)

Section BusTraffic.

Context {Bus : Type}.
Variable bus_Read : Bus -> Z -> Z * Bus.
Variable bus_Write : Bus -> Z -> Z -> Bus.
Implicit Types c : CPU Bus.

(** Reads leave the bus as it is, as in the flat-memory mode. *)
Hypothesis pure_reads : forall b address, snd (bus_Read b address) = b.

Lemma Read_preserves_bus (address : Z) :
  preserves _bus (Read bus_Read address).
Proof. intros c. apply pure_reads. Qed.

Ltac frame_bus := repeat first [ apply Read_preserves_bus | frame_step ].

Lemma addressing_mode_preserves_bus (m : AddressingModeMethod) :
  preserves _bus (call_addressing_mode bus_Read m).
Proof.
  destruct m; cbn [call_addressing_mode];
    unfold IMP, IMM, ZPG, ZPGX, ZPGY, ABS, ABSX, ABSY, IND, INDX, INDY, REL;
    frame_bus.
Qed.

Lemma addressing_mode_preserves_axy (m : AddressingModeMethod) :
  preserves _a (call_addressing_mode bus_Read m) /\
  preserves _x (call_addressing_mode bus_Read m) /\
  preserves _y (call_addressing_mode bus_Read m).
Proof.
  repeat split; destruct m; cbn [call_addressing_mode];
    unfold IMP, IMM, ZPG, ZPGX, ZPGY, ABS, ABSX, ABSY, IND, INDX, INDY, REL;
    frame.
Qed.

Lemma instruction_preserves_bus (i : InstructionMethod) (address : Z) :
  writes_memory i = false ->
  preserves _bus (call_instruction bus_Read bus_Write i address).
Proof.
  destruct i; intros Hw; try discriminate Hw; cbn [call_instruction];
    unfold LDA, LDX, LDY, ADC, SBC, INX, INY, DEX, DEY, LoadRegister,
      SetZeroAndNegativeFlags;
    frame_bus.
Qed.

Lemma Fetch_preserves_bus : preserves _bus (Fetch bus_Read).
Proof. unfold Fetch. frame_bus. Qed.

(** X18: on a bus whose reads have no effect, [Tick] leaves the bus
    untouched unless the handler of the fetched opcode is one of STA, STX,
    STY, INC, DEC: loads, ADC, SBC, the register increments and
    decrements, every addressing mode and the unimplemented opcodes never
    write. *)
Theorem Tick_writes_only_through_write_handlers c :
  (forall i,
      instructionMethod (_opcodeTable (result (Fetch bus_Read) c)) = Some i ->
      writes_memory i = false) ->
  _bus (exec (Tick bus_Read bus_Write) c) = _bus c.
Proof.
  intros Hw. unfold Tick.
  change (_bus (exec (bind (Fetch bus_Read) ?k) c))
    with (_bus (exec (k (result (Fetch bus_Read) c))
                     (exec (Fetch bus_Read) c))).
  cbv beta zeta.
  destruct (instructionMethod (_opcodeTable (result (Fetch bus_Read) c)))
    as [i|] eqn:Hi;
    destruct (addressingModeMethod
                (_opcodeTable (result (Fetch bus_Read) c))) as [m|] eqn:Hm;
    try (change (_bus (exec (print_cerr ?s) ?st)) with (_bus st);
         apply Fetch_preserves_bus).
  transitivity (_bus (exec (Fetch bus_Read) c));
    [| apply Fetch_preserves_bus].
  generalize (exec (Fetch bus_Read) c).
  change (preserves _bus
            (bind (modify (with_currentPageCrossPenalty
                             (pageCrossPenalty
                                (_opcodeTable (result (Fetch bus_Read) c)))))
               (fun _ =>
                  bind (call_addressing_mode bus_Read m)
                    (fun address =>
                       bind (call_instruction bus_Read bus_Write i address)
                         (fun _ =>
                            cycles_add
                              (cycles (_opcodeTable
                                         (result (Fetch bus_Read) c)))))))).
  frame_bus.
  - apply addressing_mode_preserves_bus.
  - apply instruction_preserves_bus. apply Hw. reflexivity.
Qed.

(** X19: on a bus whose reads have no effect, a [Tick] that dispatches STA,
    STX or STY makes exactly one change to the bus: the write of the
    register, as it was before the tick, at the address the addressing mode
    resolved. *)
Theorem Tick_store_writes_register c (i : InstructionMethod)
    (m : AddressingModeMethod) (r : Z) :
  let e := _opcodeTable (result (Fetch bus_Read) c) in
  instructionMethod e = Some i ->
  addressingModeMethod e = Some m ->
  stored_register i c = Some r ->
  let c1 := with_currentPageCrossPenalty (pageCrossPenalty e)
                                         (exec (Fetch bus_Read) c) in
  let address := result (call_addressing_mode bus_Read m) c1 in
  _bus (exec (Tick bus_Read bus_Write) c)
  = bus_Write (_bus c) (u16 address) (u8 r).
Proof.
  intros e Hi Hm Hr c1 address.
  rewrite (Tick_dispatch bus_Read bus_Write c i m Hi Hm). fold e c1 address.
  change (_bus (exec (cycles_add (cycles e)) ?s)) with (_bus s).
  set (c2 := exec (call_addressing_mode bus_Read m) c1).
  assert (Hbus : _bus c2 = _bus c).
  { unfold c2. rewrite addressing_mode_preserves_bus.
    apply Fetch_preserves_bus. }
  destruct (addressing_mode_preserves_axy m) as (Pa & Px & Py).
  assert (Ha : _a c2 = _a c) by (unfold c2; rewrite Pa; reflexivity).
  assert (Hx : _x c2 = _x c) by (unfold c2; rewrite Px; reflexivity).
  assert (Hy : _y c2 = _y c) by (unfold c2; rewrite Py; reflexivity).
  destruct i; try discriminate Hr; cbn [stored_register] in Hr;
    injection Hr as <-; cbn [call_instruction].
  - change (bus_Write (_bus c2) (u16 address) (u8 (_a c2))
            = bus_Write (_bus c) (u16 address) (u8 (_a c))).
    rewrite Hbus, Ha. reflexivity.
  - change (bus_Write (_bus c2) (u16 address) (u8 (_x c2))
            = bus_Write (_bus c) (u16 address) (u8 (_x c))).
    rewrite Hbus, Hx. reflexivity.
  - change (bus_Write (_bus c2) (u16 address) (u8 (_y c2))
            = bus_Write (_bus c) (u16 address) (u8 (_y c))).
    rewrite Hbus, Hy. reflexivity.
Qed.

End BusTraffic.

(** The flat memory meets both assumptions on the bus. *)
Lemma flat_pure_reads (b : FlatBus) (address : Z) :
  snd (flat_Read b address) = b.
Proof. reflexivity. Qed.


(** An instance of X18: scenario 5, a load, leaves the memory as it was. *)
Lemma Tick_writes_only_through_write_handlers_witness :
  (forall i,
      instructionMethod
        (_opcodeTable (result (Fetch flat_Read) lda_absx_machine)) = Some i ->
      writes_memory i = false) /\
  _bus (flat_Tick lda_absx_machine) = _bus lda_absx_machine.
Proof.
  assert (Hw : forall i,
             instructionMethod
               (_opcodeTable (result (Fetch flat_Read) lda_absx_machine))
             = Some i ->
             writes_memory i = false).
  { intros i Hi. change (Some iLDA = Some i) in Hi.
    injection Hi as <-. reflexivity. }
  split; [exact Hw |].
  apply (Tick_writes_only_through_write_handlers
           flat_Read flat_Write flat_pure_reads lda_absx_machine Hw).
Defined.

(** An instance of X19: scenario 6 writes A = 0x77 at 0x2110. *)
Lemma Tick_store_writes_register_witness :
  (instructionMethod
     (_opcodeTable (result (Fetch flat_Read) sta_absx_machine)) = Some iSTA /\
   addressingModeMethod
     (_opcodeTable (result (Fetch flat_Read) sta_absx_machine)) = Some mABSX /\
   stored_register iSTA sta_absx_machine = Some 0x77) /\
  _bus (flat_Tick sta_absx_machine)
  = flat_Write (_bus sta_absx_machine) 0x2110 0x77.
Proof.
  split; [repeat split |].
  unfold flat_Tick.
  rewrite (Tick_store_writes_register flat_Read flat_Write flat_pure_reads
             sta_absx_machine iSTA mABSX 0x77 eq_refl eq_refl eq_refl).
  reflexivity.
Defined.



(** An instance of X15: X = 0x20 after INX and DEX. *)
Lemma register_step_round_trip_witness :
  is_u8 (_x sta_absx_machine) /\
  _x (exec (DEX 0) (exec (INX 0) sta_absx_machine)) = 0x20.
Proof.
  assert (Hx : is_u8 (_x sta_absx_machine)).
  { unfold is_u8. cbn. lia. }
  split; [exact Hx |].
  destruct (register_step_round_trip 0 0 sta_absx_machine) as (_ & HX & _).
  destruct (HX Hx) as ((Heq & _) & _). rewrite Heq. reflexivity.
Defined.

(** An instance of X7: scenario 5, low byte 0xF0 plus X = 0x20 carries. *)
Lemma page_cross_is_low_byte_carry_witness :
  (indexed mABSX = true /\
   is_u8 (index_of mABSX (exec (Fetch flat_Read) lda_absx_machine))) /\
  page_crossed flat_Read mABSX (exec (Fetch flat_Read) lda_absx_machine)
  = (0xFF <? 0xF0 + 0x20).
Proof.
  assert (Hx : is_u8 (index_of mABSX
                        (exec (Fetch flat_Read) lda_absx_machine))).
  { unfold is_u8. cbn. lia. }
  split; [split; [reflexivity | exact Hx] |].
  rewrite (page_cross_is_low_byte_carry flat_Read mABSX _ eq_refl Hx).
  reflexivity.
Defined.
